(** * py21cmmc._21cmfast.wrapper: parameter structures, output boxes and the
      cache-aware orchestration functions, embedded in Rocq.

    Source: [src/py21cmmc/_21cmfast/wrapper.py].  The module imports
    [StructWithDefaults] and [OutputStruct] from [._utils], the compiled
    engine [lib] from [._21cmfast], [numpy] and [astropy]: none of these is
    part of the file, so each one enters the development either as an
    interface (a type class) or as a clearly marked model. *)

From Stdlib Require Import ZArith List Lia Bool.
From Stdlib Require Import Floats.PrimFloat.
From stdpp Require Import gmap strings pretty.

Set Warnings "-inexact-float".
Local Open Scope string_scope.
Local Open Scope Z_scope.

(* ====================================================================== *)
(** ** Python values: exceptions, results, truthiness                      *)
(* ====================================================================== *)

(** The exceptions the wrapper raises or catches.  [AttributeError] carries
    the attribute that could not be resolved. *)
Inductive exn : Type :=
| IOError
| ValueError
| NotImplementedError
| AttributeError (attr : string).

(** The outcome of evaluating an expression that may raise. *)
Inductive Result (A : Type) : Type :=
| Ok (a : A)
| Raise (e : exn).
Arguments Ok {A} a.
Arguments Raise {A} e.

Definition rbind {A B : Type} (r : Result A) (k : A -> Result B) : Result B :=
  match r with
  | Ok a => k a
  | Raise e => Raise e
  end.

Declare Scope py_scope.
Delimit Scope py_scope with py.
Notation "'do' x <- r ; k" := (rbind r (fun x => k))
  (at level 10, x name, r at level 100, k at level 200) : py_scope.
Local Open Scope py_scope.

(** Python's [a and b] and [a or b] on attribute reads: the right operand is
    looked at only when the left one does not decide, so an exception in it
    is not raised when it is skipped. *)
Definition py_and (a b : Result bool) : Result bool :=
  do x <- a; if x then b else Ok false.

Definition py_or (a b : Result bool) : Result bool :=
  do x <- a; if x then Ok true else b.

(** Truth value of a Python float: everything but (plus or minus) zero. *)
Definition float_truthy (x : float) : bool := negb (PrimFloat.eqb x 0%float).

(** Truth value of a Python int. *)
Definition int_truthy (n : Z) : bool := negb (n =? 0).

(** Truth value of an attribute that holds [None] or a number. *)
Definition opt_truthy {A : Type} (truthy : A -> bool) (o : option A) : bool :=
  match o with
  | None => false
  | Some a => truthy a
  end.

(* ====================================================================== *)
(** ** External collaborators                                              *)
(* ====================================================================== *)

(** The constants the wrapper takes from [astropy.cosmology.Planck15], the
    conversion factor [lib.NU_over_EV] of the compiled engine, and the C
    library's [pow] behind [10 ** x] on floats. *)
Class Numerics : Type := {
  Planck15_h : float;
  Planck15_Om0 : float;
  Planck15_Ob0 : float;
  NU_over_EV : float;
  float_pow : float -> float -> float
}.

(** [numpy.random.randint(low, high)]: a generator state, and a draw that
    returns a value and the next state.  [randint_range] is numpy's
    contract: the value lies in the half-open interval. *)
Class RandomState : Type := {
  Rng : Type;
  randint : Z -> Z -> Rng -> Z * Rng
}.

Definition randint_in_range `{RandomState} : Prop :=
  forall (low high : Z) (g : Rng), low < high ->
    low <= fst (randint low high g) < high.

(* ====================================================================== *)
(** ** Parameter structures                                                *)
(* ====================================================================== *)

(** *** CosmoParams *)

(** The attributes of a [CosmoParams] instance: one per key of
    [_defaults_]; a key that the class also defines as a property
    ([RANDOM_SEED]) is stored under a leading underscore, which is the name
    the property reads. *)
Record CosmoParams : Type := mkCosmoParams {
  _RANDOM_SEED : option Z;
  SIGMA_8 : float;
  hlittle : float;
  OMm : float;
  OMb : float;
  POWER_INDEX : float
}.

(** Modelled from the spec: the constructor, [StructWithDefaults.__init__]
    of [_utils], is not in the file.  The spec calls a parameter set a
    key-value bundle with defaults: each key of [_defaults_] takes the
    keyword argument when one is given and the default otherwise. *)
Definition CosmoParams_new `{Numerics}
    (RANDOM_SEED : option Z) (SIGMA_8 hlittle OMm OMb POWER_INDEX : option float)
    : CosmoParams :=
  {| _RANDOM_SEED := RANDOM_SEED;
     SIGMA_8 := default 0.82%float SIGMA_8;
     hlittle := default Planck15_h hlittle;
     OMm := default Planck15_Om0 OMm;
     OMb := default Planck15_Ob0 OMb;
     POWER_INDEX := default 0.97%float POWER_INDEX |}.

Definition set_RANDOM_SEED (self : CosmoParams) (seed : option Z) : CosmoParams :=
  {| _RANDOM_SEED := seed;
     SIGMA_8 := SIGMA_8 self;
     hlittle := hlittle self;
     OMm := OMm self;
     OMb := OMb self;
     POWER_INDEX := POWER_INDEX self |}.

(** The [RANDOM_SEED] property:
<<
    while not self._RANDOM_SEED:
        self._RANDOM_SEED = int(np.random.randint(1, 1e12))
    return self._RANDOM_SEED
>>
    The loop is unfolded [fuel] times; [None] is "still looping".  Reading
    the property mutates the instance and consumes random draws, so the
    instance and the generator state are threaded through. *)
Fixpoint RANDOM_SEED `{RandomState} (fuel : nat) (self : CosmoParams) (g : Rng)
    : option (Z * CosmoParams * Rng) :=
  match fuel with
  | O => None
  | S fuel' =>
      if negb (opt_truthy int_truthy (_RANDOM_SEED self)) then
        let (n, g') := randint 1 (10 ^ 12) g in
        RANDOM_SEED fuel' (set_RANDOM_SEED self (Some n)) g'
      else
        match _RANDOM_SEED self with
        | Some n => Some (n, self, g)
        | None => None
        end
  end.

Definition OMl (self : CosmoParams) : float := (1 - OMm self)%float.

(** *** UserParams *)

Record UserParams : Type := mkUserParams {
  BOX_LEN : float;
  _DIM : option Z;
  HII_DIM : Z
}.

(** Modelled from the spec: the constructor (see [CosmoParams_new]), over
    [UserParams._defaults_]. *)
Definition UserParams_new (BOX_LEN : option float) (DIM HII_DIM : option Z)
    : UserParams :=
  {| BOX_LEN := default 150.0%float BOX_LEN;
     _DIM := DIM;
     HII_DIM := default 100 HII_DIM |}.

(** [return self._DIM or 4 * self.HII_DIM] *)
Definition DIM (self : UserParams) : Z :=
  match _DIM self with
  | Some d => if int_truthy d then d else 4 * HII_DIM self
  | None => 4 * HII_DIM self
  end.

Definition tot_fft_num_pixels (self : UserParams) : Z := DIM self ^ 3.

Definition HII_tot_num_pixels (self : UserParams) : Z := HII_DIM self ^ 3.

(** *** AstroParams *)

Record AstroParams : Type := mkAstroParams {
  INHOMO_RECO : bool;
  EFF_FACTOR_PL_INDEX : float;
  HII_EFF_FACTOR : float;
  _R_BUBBLE_MAX : option float;
  _ION_Tvir_MIN : float;
  _L_X : float;
  _NU_X_THRESH : float;
  _NU_X_BAND_MAX : float;
  _NU_X_MAX : float;
  X_RAY_SPEC_INDEX : float;
  _X_RAY_Tvir_MIN : option float;
  X_RAY_Tvir_LOWERBOUND : float;
  X_RAY_Tvir_UPPERBOUND : float;
  F_STAR : float;
  t_STAR : float;
  N_RSD_STEPS : Z;
  LOS_direction : Z;
  Z_HEAT_MAX : float;
  ZPRIME_STEP_FACTOR : float
}.

(** Modelled from the spec: the constructor (see [CosmoParams_new]), over
    [AstroParams._defaults_]; [AstroParams.__init__] stores its positional
    argument [INHOMO_RECO] before it calls the base constructor. *)
Definition AstroParams_new (INHOMO_RECO : bool)
    (EFF_FACTOR_PL_INDEX HII_EFF_FACTOR R_BUBBLE_MAX ION_Tvir_MIN L_X
     NU_X_THRESH NU_X_BAND_MAX NU_X_MAX X_RAY_SPEC_INDEX X_RAY_Tvir_MIN
     X_RAY_Tvir_LOWERBOUND X_RAY_Tvir_UPPERBOUND F_STAR t_STAR : option float)
    (N_RSD_STEPS LOS_direction : option Z)
    (Z_HEAT_MAX ZPRIME_STEP_FACTOR : option float) : AstroParams :=
  {| INHOMO_RECO := INHOMO_RECO;
     EFF_FACTOR_PL_INDEX := default 0.0%float EFF_FACTOR_PL_INDEX;
     HII_EFF_FACTOR := default 30.0%float HII_EFF_FACTOR;
     _R_BUBBLE_MAX := R_BUBBLE_MAX;
     _ION_Tvir_MIN := default 4.69897%float ION_Tvir_MIN;
     _L_X := default 40.0%float L_X;
     _NU_X_THRESH := default 500.0%float NU_X_THRESH;
     _NU_X_BAND_MAX := default 2000.0%float NU_X_BAND_MAX;
     _NU_X_MAX := default 10000.0%float NU_X_MAX;
     X_RAY_SPEC_INDEX := default 1.0%float X_RAY_SPEC_INDEX;
     _X_RAY_Tvir_MIN := X_RAY_Tvir_MIN;
     X_RAY_Tvir_LOWERBOUND := default 4.0%float X_RAY_Tvir_LOWERBOUND;
     X_RAY_Tvir_UPPERBOUND := default 6.0%float X_RAY_Tvir_UPPERBOUND;
     F_STAR := default 0.05%float F_STAR;
     t_STAR := default 0.5%float t_STAR;
     N_RSD_STEPS := default 20 N_RSD_STEPS;
     LOS_direction := default 2 LOS_direction;
     Z_HEAT_MAX := default 10.0%float Z_HEAT_MAX;
     ZPRIME_STEP_FACTOR := default 1.02%float ZPRIME_STEP_FACTOR |}.

(** [10 ** x] for a float [x]. *)
Definition pow10 `{Numerics} (x : float) : float := float_pow 10%float x.

Definition R_BUBBLE_MAX (self : AstroParams) : float :=
  let unset := if INHOMO_RECO self then 50.0%float else 15.0%float in
  match _R_BUBBLE_MAX self with
  | Some r => if negb (float_truthy r) then unset else r
  | None => unset
  end.

Definition ION_Tvir_MIN `{Numerics} (self : AstroParams) : float :=
  pow10 (_ION_Tvir_MIN self).

Definition L_X `{Numerics} (self : AstroParams) : float :=
  pow10 (_L_X self).

(** [return 10 ** self._X_RAY_Tvir_MIN if self._X_RAY_Tvir_MIN else self.ION_Tvir_MIN] *)
Definition X_RAY_Tvir_MIN `{Numerics} (self : AstroParams) : float :=
  match _X_RAY_Tvir_MIN self with
  | Some x => if float_truthy x then pow10 x else ION_Tvir_MIN self
  | None => ION_Tvir_MIN self
  end.

Definition NU_X_THRESH `{Numerics} (self : AstroParams) : float :=
  (_NU_X_THRESH self * NU_over_EV)%float.

Definition NU_X_BAND_MAX `{Numerics} (self : AstroParams) : float :=
  (_NU_X_BAND_MAX self * NU_over_EV)%float.

Definition NU_X_MAX `{Numerics} (self : AstroParams) : float :=
  (_NU_X_MAX self * NU_over_EV)%float.

(** *** FlagOptions *)

(** The key [INHOMO_RECO] of [FlagOptions._defaults_] is the field
    [FLAG_INHOMO_RECO]: the name is taken by the attribute of
    [AstroParams]. *)
Record FlagOptions : Type := mkFlagOptions {
  INCLUDE_ZETA_PL : bool;
  SUBCELL_RSD : bool;
  USE_FCOLL_IONISATION_TABLE : bool;
  SHORTEN_FCOLL : bool;
  FLAG_INHOMO_RECO : bool
}.

(** What attribute lookup on an instance finds beyond the keys of its own
    [_defaults_]: the class attributes of [StructWithDefaults], which is
    not in the file.  [None] is "no such attribute". *)
Class BaseClass : Type := {
  base_attr : string -> option bool
}.

(** A base class that defines none of the names looked up: every attribute
    of an instance is a key of its [_defaults_]. *)
Definition bare_base : BaseClass := {| base_attr := fun _ => None |}.

(** [self.<name>] on a [FlagOptions]: the instance's own fields first, then
    the base class, and [AttributeError] when neither has the name. *)
Definition FlagOptions_getattr `{BaseClass} (self : FlagOptions) (name : string)
    : Result bool :=
  if String.eqb name "INCLUDE_ZETA_PL" then Ok (INCLUDE_ZETA_PL self)
  else if String.eqb name "SUBCELL_RSD" then Ok (SUBCELL_RSD self)
  else if String.eqb name "USE_FCOLL_IONISATION_TABLE" then Ok (USE_FCOLL_IONISATION_TABLE self)
  else if String.eqb name "SHORTEN_FCOLL" then Ok (SHORTEN_FCOLL self)
  else if String.eqb name "INHOMO_RECO" then Ok (FLAG_INHOMO_RECO self)
  else match base_attr name with
       | Some b => Ok b
       | None => Raise (AttributeError name)
       end.

(** [FlagOptions._logic]: four checks in order, each reading its attributes
    left to right. *)
Definition FlagOptions_logic `{BaseClass} (self : FlagOptions) : Result unit :=
  let attr := FlagOptions_getattr self in
  do c1 <- py_and (attr "GenerateNewICs")
                  (py_or (attr "USE_FCOLL_IONISATION_TABLE") (attr "SHORTEN_FCOLL"));
  if c1 then Raise ValueError else
  do c2 <- py_and (attr "USE_TS_FLUCT") (attr "INCLUDE_ZETA_PL");
  if c2 then Raise NotImplementedError else
  do c3 <- py_and (attr "USE_FCOLL_IONISATION_TABLE") (attr "INHOMO_RECO");
  if c3 then Raise ValueError else
  do c4 <- py_and (attr "INHOMO_RECO") (attr "USE_TS_FLUCT");
  if c4 then Raise ValueError else
  Ok tt.

(** Modelled from the spec: the constructor, [StructWithDefaults.__init__]
    of [_utils], is not in the file.  The spec has validation raise at
    construction time: the instance is filled from [_defaults_] and the
    keyword arguments, then [_logic] runs, and the instance exists only
    when [_logic] returns. *)
Definition FlagOptions_new `{BaseClass}
    (INCLUDE_ZETA_PL SUBCELL_RSD USE_FCOLL_IONISATION_TABLE SHORTEN_FCOLL
     INHOMO_RECO : option bool) : Result FlagOptions :=
  let self :=
    {| INCLUDE_ZETA_PL := default false INCLUDE_ZETA_PL;
       SUBCELL_RSD := default false SUBCELL_RSD;
       USE_FCOLL_IONISATION_TABLE := default false USE_FCOLL_IONISATION_TABLE;
       SHORTEN_FCOLL := default false SHORTEN_FCOLL;
       FLAG_INHOMO_RECO := default false INHOMO_RECO |} in
  do _u <- FlagOptions_logic self;
  Ok self.

(* ====================================================================== *)
(** ** Output structures                                                   *)
(* ====================================================================== *)

(** A one-dimensional [numpy] array of [float32]. *)
Definition ndarray : Type := list float.

(** The largest size in bytes numpy gives an array on a 64-bit build (the
    maximum of its index type [npy_intp]), and the bytes of a [float32]. *)
Definition npy_intp_max : Z := 2 ^ 63 - 1.

Definition float32_itemsize : Z := 4.

(** [np.zeros(n, dtype=np.float32)] for an integer [n]: numpy refuses a
    negative length, and a length whose bytes are beyond [npy_intp_max],
    with a [ValueError].  Whether the machine then has the memory is not
    part of the model: [Ok] is an allocation that the machine served, and
    beyond the few cells of the examples no statement below concludes
    that an allocation goes through. *)
Definition np_zeros (n : Z) : Result ndarray :=
  if n <? 0 then Raise ValueError
  else if npy_intp_max <? n * float32_itemsize then Raise ValueError
  else Ok (repeat 0%float (Z.to_nat n)).

(** What [_init_boxes] leaves behind: the attributes it has set on the
    instance, in the order of the assignments, and the list it returns. *)
Record InitBoxes : Type := mkInitBoxes {
  attributes : list (string * ndarray);
  returned_names : list string
}.

(** [InitialConditions._init_boxes] *)
Definition InitialConditions_init_boxes (user_params : UserParams) : Result InitBoxes :=
  do lowres_density <- np_zeros (HII_tot_num_pixels user_params);
  do lowres_vz <- np_zeros (HII_tot_num_pixels user_params);
  do lowres_vz_2LPT <- np_zeros (HII_tot_num_pixels user_params);
  do hires_density <- np_zeros (tot_fft_num_pixels user_params);
  Ok {| attributes := [("lowres_density", lowres_density);
                       ("lowres_vz", lowres_vz);
                       ("lowres_vz_2LPT", lowres_vz_2LPT);
                       ("hires_density", hires_density)];
        returned_names := ["lowres_density"; "lowres_vz"; "lowre_vz_2LPT";
                           "hires_density"] |}.

(** [PerturbedField._init_boxes] *)
Definition PerturbedField_init_boxes (user_params : UserParams) : Result InitBoxes :=
  do density <- np_zeros (HII_tot_num_pixels user_params);
  do velocity <- np_zeros (HII_tot_num_pixels user_params);
  Ok {| attributes := [("density", density); ("velocity", velocity)];
        returned_names := ["density"; "velocity"] |}.

(** [IonizedBox._init_boxes] *)
Definition IonizedBox_init_boxes (user_params : UserParams) : Result InitBoxes :=
  do ionized_box <- np_zeros (HII_tot_num_pixels user_params);
  Ok {| attributes := [("ionized_box", ionized_box)];
        returned_names := ["ionized_box"] |}.

(** [TsBox._init_boxes] *)
Definition TsBox_init_boxes (user_params : UserParams) : Result InitBoxes :=
  do Ts_box <- np_zeros (HII_tot_num_pixels user_params);
  Ok {| attributes := [("Ts_box", Ts_box)];
        returned_names := ["Ts_box"] |}.

(** The array stored under an attribute name, if [_init_boxes] set one. *)
Definition attribute (b : InitBoxes) (name : string) : option ndarray :=
  snd <$> List.find (fun kv => String.eqb (fst kv) name) (attributes b).

(** The names [_init_boxes] returns are exactly the attributes it set. *)
Definition names_match_attributes (b : InitBoxes) : Prop :=
  forall name : string,
    In name (returned_names b) <-> In name (map fst (attributes b)).

(** An output object as the orchestration functions see it.  [Payload] is
    the content of its arrays, which only the engine and the cache produce;
    [K] holds the keyword attributes of the subclass. *)
Module OutputStruct.
Record t (Payload K : Type) : Type := mk {
  user_params : UserParams;
  cosmo_params : CosmoParams;
  kwargs : K;
  filled : bool;
  arrays : Payload
}.
Arguments mk {Payload K}.
Arguments user_params {Payload K}.
Arguments cosmo_params {Payload K}.
Arguments kwargs {Payload K}.
Arguments filled {Payload K}.
Arguments arrays {Payload K}.
End OutputStruct.
Abbreviation OutputStruct := OutputStruct.t.

(** The classes of output object. *)
Inductive BoxClass : Type :=
| InitialConditions
| PerturbedField
| IonizedBox
| TsBox.

(** The keyword attributes of an [IonizedBox] or of its subclass [TsBox],
    and which of the two the object is. *)
Record IonizedKw : Type := mkIonizedKw {
  box_class : BoxClass;
  redshift : float;
  astro_params : AstroParams;
  flag_options : FlagOptions
}.

(** [fields.redshift] of a [PerturbedField], its one keyword attribute. *)
Definition PerturbedField_redshift {Payload : Type} (fields : OutputStruct Payload float)
    : float :=
  OutputStruct.kwargs fields.


(** An output object of any class, as [read] and [write] receive it. *)
Inductive AnyBox (Payload : Type) : Type :=
| IsInitialConditions (b : OutputStruct Payload unit)
| IsPerturbedField (b : OutputStruct Payload float)
| IsIonizedBox (b : OutputStruct Payload IonizedKw).
Arguments IsInitialConditions {Payload}.
Arguments IsPerturbedField {Payload}.
Arguments IsIonizedBox {Payload}.

(** A call into the compiled engine [lib], with its arguments. *)
Inductive EngineCall (Payload : Type) : Type :=
| ComputeInitialConditions (user_params : UserParams) (cosmo_params : CosmoParams)
    (boxes : OutputStruct Payload unit)
| ComputePerturbField (redshift : float) (init_boxes : OutputStruct Payload unit)
    (fields : OutputStruct Payload float)
| ComputeIonizedBox (redshift : float) (perturbed_field : OutputStruct Payload float)
    (box : OutputStruct Payload IonizedKw)
| ComputeTsBox (redshift : float) (perturbed_field : OutputStruct Payload float)
    (box : OutputStruct Payload IonizedKw).
Arguments ComputeInitialConditions {Payload}.
Arguments ComputePerturbField {Payload}.
Arguments ComputeIonizedBox {Payload}.
Arguments ComputeTsBox {Payload}.

(** What an orchestration function does to the outside world, in order. *)
Inductive Event (Payload : Type) : Type :=
| Read (b : AnyBox Payload) (direc fname : option string) (match_seed : bool)
| Engine (c : EngineCall Payload)
| Write (b : AnyBox Payload) (direc fname : option string).
Arguments Read {Payload}.
Arguments Engine {Payload}.
Arguments Write {Payload}.

(** The collaborators behind the orchestration functions, none of which is
    in the file: the allocation done by [OutputStruct.__init__], the cache
    lookup behind [OutputStruct.read], the file written by
    [OutputStruct.write], and the arrays an engine routine computes. *)
Class Backend (Payload Disk : Type) : Type := {
  allocated : BoxClass -> UserParams -> Payload;
  find_existing : Disk -> AnyBox Payload -> option string -> option string -> bool
                  -> option Payload;
  written : Disk -> AnyBox Payload -> option string -> option string -> Disk;
  computed : EngineCall Payload -> Payload
}.

(** The world an orchestration function runs in: the cache directory, and
    the events so far, oldest first. *)
Record World (Payload Disk : Type) : Type := mkWorld {
  disk : Disk;
  trace : list (Event Payload)
}.
Arguments mkWorld {Payload Disk}.
Arguments disk {Payload Disk}.
Arguments trace {Payload Disk}.

(* ====================================================================== *)
(** ** Wrapping functions                                                  *)
(* ====================================================================== *)

Section Wrapper.
Context {Payload Disk : Type} `{Backend Payload Disk} `{Numerics}.

(** A computation that may raise, in a world it may change.  An exception
    leaves the world as it was when it was raised. *)
Definition M (A : Type) : Type :=
  World Payload Disk -> Result A * World Payload Disk.

Definition ret {A : Type} (a : A) : M A := fun w => (Ok a, w).

Definition raise {A : Type} (e : exn) : M A := fun w => (Raise e, w).

Definition bind {A B : Type} (m : M A) (k : A -> M B) : M B :=
  fun w =>
    match m w with
    | (Ok a, w') => k a w'
    | (Raise e, w') => (Raise e, w')
    end.

Notation "'let*' x := m 'in' k" := (bind m (fun x => k))
  (at level 10, x name, m at level 100, k at level 200).

(** [try: body / except IOError: handler]: only an [IOError] is caught. *)
Definition try_except_IOError {A : Type} (body handler : M A) : M A :=
  fun w =>
    match body w with
    | (Raise IOError, w') => handler w'
    | outcome => outcome
    end.

Definition record (ev : Event Payload) : M unit :=
  fun w => (Ok tt, {| disk := disk w; trace := trace w ++ [ev] |}).

Definition set_arrays {K : Type} (self : OutputStruct Payload K) (p : Payload)
    : OutputStruct Payload K :=
  {| OutputStruct.user_params := OutputStruct.user_params self;
     OutputStruct.cosmo_params := OutputStruct.cosmo_params self;
     OutputStruct.kwargs := OutputStruct.kwargs self;
     OutputStruct.filled := OutputStruct.filled self;
     OutputStruct.arrays := p |}.

Definition set_filled {K : Type} (self : OutputStruct Payload K) (b : bool)
    : OutputStruct Payload K :=
  {| OutputStruct.user_params := OutputStruct.user_params self;
     OutputStruct.cosmo_params := OutputStruct.cosmo_params self;
     OutputStruct.kwargs := OutputStruct.kwargs self;
     OutputStruct.filled := b;
     OutputStruct.arrays := OutputStruct.arrays self |}.

(** Modelled from the spec: [OutputStruct.__init__] of [_utils] is not in
    the file.  The spec has an output box sized by the user parameters,
    tagged with the parameter sets that produced it, and not filled until
    the engine has populated it.  This is the object once its arrays are
    there; the allocation itself, which [np.zeros] may refuse, is the
    [constructed] of [Allocating] below, and the functions of this section
    describe the calls in which every allocation was served. *)
Definition OutputStruct_new {K : Type} (cls : BoxClass)
    (user_params : UserParams) (cosmo_params : CosmoParams) (kw : K)
    : OutputStruct Payload K :=
  {| OutputStruct.user_params := user_params;
     OutputStruct.cosmo_params := cosmo_params;
     OutputStruct.kwargs := kw;
     OutputStruct.filled := false;
     OutputStruct.arrays := allocated cls user_params |}.

(** [InitialConditions(user_params, cosmo_params)] *)
Definition InitialConditions_new (user_params : UserParams) (cosmo_params : CosmoParams)
    : OutputStruct Payload unit :=
  OutputStruct_new InitialConditions user_params cosmo_params tt.

(** [PerturbedField(user_params, cosmo_params, redshift)] *)
Definition PerturbedField_new (user_params : UserParams) (cosmo_params : CosmoParams)
    (redshift : float) : OutputStruct Payload float :=
  OutputStruct_new PerturbedField user_params cosmo_params redshift.

(** [cls(user_params=..., cosmo_params=..., redshift=..., astro_params=...,
    flag_options=...)] for [cls] one of [IonizedBox] and [TsBox]. *)
Definition IonizedBox_new (cls : BoxClass) (user_params : UserParams)
    (cosmo_params : CosmoParams) (redshift : float) (astro_params : AstroParams)
    (flag_options : FlagOptions) : OutputStruct Payload IonizedKw :=
  OutputStruct_new cls user_params cosmo_params
    {| box_class := cls; redshift := redshift; astro_params := astro_params;
       flag_options := flag_options |}.

(** Modelled from the spec: [OutputStruct.read] of [_utils] is not in the
    file.  The spec has a cache miss signalled by a file-not-found
    condition; a hit loads the arrays the engine once populated, so the
    object is filled. *)
Definition OutputStruct_read {K : Type} (as_box : OutputStruct Payload K -> AnyBox Payload)
    (self : OutputStruct Payload K) (direc fname : option string) (match_seed : bool)
    : M (OutputStruct Payload K) :=
  let* _u := record (Read (as_box self) direc fname match_seed) in
  fun w =>
    match find_existing (disk w) (as_box self) direc fname match_seed with
    | Some p => (Ok (set_filled (set_arrays self p) true), w)
    | None => (Raise IOError, w)
    end.

(** Modelled from the spec: [OutputStruct.write] of [_utils] is not in the
    file.  The spec has the object persisted to the cache directory. *)
Definition OutputStruct_write {K : Type} (as_box : OutputStruct Payload K -> AnyBox Payload)
    (self : OutputStruct Payload K) (direc fname : option string) : M unit :=
  let* _u := record (Write (as_box self) direc fname) in
  fun w =>
    (Ok tt, {| disk := written (disk w) (as_box self) direc fname; trace := trace w |}).

(** A routine of [lib] fills the arrays of its last argument in place. *)
Definition lib {K : Type} (call : EngineCall Payload) (out : OutputStruct Payload K)
    : M (OutputStruct Payload K) :=
  let* _u := record (Engine call) in
  ret (set_arrays out (computed call)).

(** The block the three functions share:
<<
    if not regenerate:
        try:
            boxes.read(direc, fname, match_seed)
            return boxes
        except IOError:
            pass
>>
    [Some] is the early return, [None] falls through. *)
Definition read_unless_regenerate {K : Type}
    (as_box : OutputStruct Payload K -> AnyBox Payload) (regenerate : bool)
    (boxes : OutputStruct Payload K) (direc fname : option string) (match_seed : bool)
    : M (option (OutputStruct Payload K)) :=
  if negb regenerate then
    try_except_IOError
      (let* boxes := OutputStruct_read as_box boxes direc fname match_seed in
       ret (Some boxes))
      (ret None)
  else ret None.

Definition initial_conditions (user_params : UserParams) (cosmo_params : CosmoParams)
    (regenerate write : bool) (direc fname : option string) (match_seed : bool)
    : M (OutputStruct Payload unit) :=
  let boxes := InitialConditions_new user_params cosmo_params in
  let* existing :=
    read_unless_regenerate IsInitialConditions regenerate boxes direc fname match_seed in
  match existing with
  | Some boxes => ret boxes
  | None =>
      let* boxes := lib (ComputeInitialConditions user_params cosmo_params boxes) boxes in
      let boxes := set_filled boxes true in
      let* _u := (if write then OutputStruct_write IsInitialConditions boxes direc fname
                  else ret tt) in
      ret boxes
  end.

Definition perturb_field (redshift : float)
    (init_boxes : option (OutputStruct Payload unit))
    (user_params : option UserParams) (cosmo_params : option CosmoParams)
    (regenerate write : bool) (direc fname : option string) (match_seed : bool)
    : M (OutputStruct Payload float) :=
  let user_params :=
    match init_boxes with
    | Some b => Some (OutputStruct.user_params b)
    | None => user_params
    end in
  let cosmo_params :=
    match init_boxes with
    | Some b => Some (OutputStruct.cosmo_params b)
    | None => cosmo_params
    end in
  let user_params := default (UserParams_new None None None) user_params in
  let cosmo_params := default (CosmoParams_new None None None None None None) cosmo_params in
  let* init_boxes :=
    match init_boxes with
    | Some b =>
        if negb (OutputStruct.filled b) then
          initial_conditions user_params cosmo_params regenerate write direc fname false
        else ret b
    | None =>
        initial_conditions user_params cosmo_params regenerate write direc fname false
    end in
  let fields := PerturbedField_new user_params cosmo_params redshift in
  let* existing :=
    read_unless_regenerate IsPerturbedField regenerate fields direc fname match_seed in
  match existing with
  | Some fields => ret fields
  | None =>
      let* fields := lib (ComputePerturbField redshift init_boxes fields) fields in
      let fields := set_filled fields true in
      let* _u := (if write then OutputStruct_write IsPerturbedField fields direc fname
                  else ret tt) in
      ret fields
  end.

Definition ionize_box (astro_params : AstroParams) (flag_options : FlagOptions)
    (redshift : option float) (perturbed_field : option (OutputStruct Payload float))
    (init_boxes : option (OutputStruct Payload unit))
    (cosmo_params : option CosmoParams) (user_params : option UserParams)
    (regenerate write : bool) (direc fname : option string) (match_seed : bool)
    (do_spin_temp : bool) : M (OutputStruct Payload IonizedKw) :=
  let* redshift :=
    match perturbed_field, redshift with
    | None, None => raise ValueError
    | Some f, _ => ret (PerturbedField_redshift f)
    | None, Some z => ret z
    end in
  let* perturbed_field :=
    match perturbed_field with
    | Some f =>
        if negb (OutputStruct.filled f) then
          perturb_field redshift init_boxes user_params cosmo_params
            regenerate write direc fname match_seed
        else ret f
    | None =>
        perturb_field redshift init_boxes user_params cosmo_params
          regenerate write direc fname match_seed
    end in
  let cls := if negb do_spin_temp then IonizedBox else TsBox in
  let box := IonizedBox_new cls (OutputStruct.user_params perturbed_field)
               (OutputStruct.cosmo_params perturbed_field) redshift
               astro_params flag_options in
  let* existing :=
    read_unless_regenerate IsIonizedBox regenerate box direc fname match_seed in
  match existing with
  | Some box => ret box
  | None =>
      let* box :=
        (if negb do_spin_temp then
           lib (ComputeIonizedBox redshift perturbed_field box) box
         else
           lib (ComputeTsBox redshift perturbed_field box) box) in
      let box := set_filled box true in
      let* _u := (if write then OutputStruct_write IsIonizedBox box direc fname
                  else ret tt) in
      ret box
  end.

End Wrapper.

(* ====================================================================== *)
(** ** Wrapping functions, with the allocation of the output objects       *)
(* ====================================================================== *)

(** The [_init_boxes] of each class of output object. *)
Definition init_boxes_of (cls : BoxClass) (up : UserParams) : Result InitBoxes :=
  match cls with
  | InitialConditions => InitialConditions_init_boxes up
  | PerturbedField => PerturbedField_init_boxes up
  | IonizedBox => IonizedBox_init_boxes up
  | TsBox => TsBox_init_boxes up
  end.

(** The three functions once more, as the file has them, with the
    constructor of each output object running the [_init_boxes] of its
    class: where the functions above take the arrays of a fresh object as
    given, here [np.zeros] may refuse them, and the exception leaves the
    function at the point of the constructor call. *)
Module Allocating.
Section Allocating.
Context {Payload Disk : Type} `{Backend Payload Disk} `{Numerics}.

Notation "'let*' x := m 'in' k" := (bind m (fun x => k))
  (at level 10, x name, m at level 100, k at level 200).

(** Modelled from the spec: [OutputStruct.__init__] of [_utils] is not in
    the file.  The spec has the container allocate its arrays, sized by
    the grid dimensions, and [initial_conditions] opens with "First
    initialize memory for the boxes that will be returned": the
    constructor runs [_init_boxes], and an object exists only when the
    allocation has returned. *)
Definition constructed {K : Type} (cls : BoxClass)
    (user_params : UserParams) (cosmo_params : CosmoParams) (kw : K)
    : @M Payload Disk (OutputStruct Payload K) :=
  fun w =>
    match init_boxes_of cls user_params with
    | Ok _ => (Ok (OutputStruct_new cls user_params cosmo_params kw), w)
    | Raise e => (Raise e, w)
    end.

Definition initial_conditions (user_params : UserParams) (cosmo_params : CosmoParams)
    (regenerate write : bool) (direc fname : option string) (match_seed : bool)
    : @M Payload Disk (OutputStruct Payload unit) :=
  let* boxes := constructed InitialConditions user_params cosmo_params tt in
  let* existing :=
    read_unless_regenerate IsInitialConditions regenerate boxes direc fname match_seed in
  match existing with
  | Some boxes => ret boxes
  | None =>
      let* boxes := lib (ComputeInitialConditions user_params cosmo_params boxes) boxes in
      let boxes := set_filled boxes true in
      let* _u := (if write then OutputStruct_write IsInitialConditions boxes direc fname
                  else ret tt) in
      ret boxes
  end.

Definition perturb_field (redshift : float)
    (init_boxes : option (OutputStruct Payload unit))
    (user_params : option UserParams) (cosmo_params : option CosmoParams)
    (regenerate write : bool) (direc fname : option string) (match_seed : bool)
    : @M Payload Disk (OutputStruct Payload float) :=
  let user_params :=
    match init_boxes with
    | Some b => Some (OutputStruct.user_params b)
    | None => user_params
    end in
  let cosmo_params :=
    match init_boxes with
    | Some b => Some (OutputStruct.cosmo_params b)
    | None => cosmo_params
    end in
  let user_params := default (UserParams_new None None None) user_params in
  let cosmo_params := default (CosmoParams_new None None None None None None) cosmo_params in
  let* init_boxes :=
    match init_boxes with
    | Some b =>
        if negb (OutputStruct.filled b) then
          initial_conditions user_params cosmo_params regenerate write direc fname false
        else ret b
    | None =>
        initial_conditions user_params cosmo_params regenerate write direc fname false
    end in
  let* fields := constructed PerturbedField user_params cosmo_params redshift in
  let* existing :=
    read_unless_regenerate IsPerturbedField regenerate fields direc fname match_seed in
  match existing with
  | Some fields => ret fields
  | None =>
      let* fields := lib (ComputePerturbField redshift init_boxes fields) fields in
      let fields := set_filled fields true in
      let* _u := (if write then OutputStruct_write IsPerturbedField fields direc fname
                  else ret tt) in
      ret fields
  end.

Definition ionize_box (astro_params : AstroParams) (flag_options : FlagOptions)
    (redshift : option float) (perturbed_field : option (OutputStruct Payload float))
    (init_boxes : option (OutputStruct Payload unit))
    (cosmo_params : option CosmoParams) (user_params : option UserParams)
    (regenerate write : bool) (direc fname : option string) (match_seed : bool)
    (do_spin_temp : bool) : @M Payload Disk (OutputStruct Payload IonizedKw) :=
  let* redshift :=
    match perturbed_field, redshift with
    | None, None => raise ValueError
    | Some f, _ => ret (PerturbedField_redshift f)
    | None, Some z => ret z
    end in
  let* perturbed_field :=
    match perturbed_field with
    | Some f =>
        if negb (OutputStruct.filled f) then
          perturb_field redshift init_boxes user_params cosmo_params
            regenerate write direc fname match_seed
        else ret f
    | None =>
        perturb_field redshift init_boxes user_params cosmo_params
          regenerate write direc fname match_seed
    end in
  let cls := if negb do_spin_temp then IonizedBox else TsBox in
  let* box := constructed cls (OutputStruct.user_params perturbed_field)
                (OutputStruct.cosmo_params perturbed_field)
                {| box_class := cls; redshift := redshift;
                   astro_params := astro_params; flag_options := flag_options |} in
  let* existing :=
    read_unless_regenerate IsIonizedBox regenerate box direc fname match_seed in
  match existing with
  | Some box => ret box
  | None =>
      let* box :=
        (if negb do_spin_temp then
           lib (ComputeIonizedBox redshift perturbed_field box) box
         else
           lib (ComputeTsBox redshift perturbed_field box) box) in
      let box := set_filled box true in
      let* _u := (if write then OutputStruct_write IsIonizedBox box direc fname
                  else ret tt) in
      ret box
  end.

End Allocating.
End Allocating.

(* ====================================================================== *)
(** ** Cache identity of a parameter set                                   *)
(* ====================================================================== *)

(** A field value of a parameter set. *)
Inductive Value : Type :=
| VNone
| VBool (b : bool)
| VInt (n : Z)
| VFloat (x : float).

(** A parameter-set instance as the cache sees it: its class and its
    key-value bundle. *)
Record ParamSet : Type := mkParamSet {
  class_name : string;
  pystruct : gmap string Value
}.

Definition CosmoParams_pystruct (self : CosmoParams) : ParamSet :=
  {| class_name := "CosmoParams";
     pystruct :=
       list_to_map
         [("RANDOM_SEED", from_option VInt VNone (_RANDOM_SEED self));
          ("SIGMA_8", VFloat (SIGMA_8 self));
          ("hlittle", VFloat (hlittle self));
          ("OMm", VFloat (OMm self));
          ("OMb", VFloat (OMb self));
          ("POWER_INDEX", VFloat (POWER_INDEX self))] |}.

Definition UserParams_pystruct (self : UserParams) : ParamSet :=
  {| class_name := "UserParams";
     pystruct :=
       list_to_map
         [("BOX_LEN", VFloat (BOX_LEN self));
          ("DIM", from_option VInt VNone (_DIM self));
          ("HII_DIM", VInt (HII_DIM self))] |}.

Definition FlagOptions_pystruct (self : FlagOptions) : ParamSet :=
  {| class_name := "FlagOptions";
     pystruct :=
       list_to_map
         [("INCLUDE_ZETA_PL", VBool (INCLUDE_ZETA_PL self));
          ("SUBCELL_RSD", VBool (SUBCELL_RSD self));
          ("USE_FCOLL_IONISATION_TABLE", VBool (USE_FCOLL_IONISATION_TABLE self));
          ("SHORTEN_FCOLL", VBool (SHORTEN_FCOLL self));
          ("INHOMO_RECO", VBool (FLAG_INHOMO_RECO self))] |}.

Section CacheIdentity.
(** Python's [str] on a field value and the digest behind a file name. *)
Context (repr : Value -> string) (digest : string -> string).
Context {Payload : Type}.

(** The field values in a canonical order (that of the keys), one
    ["key:value"] after the other. *)
Definition serialise (fields : gmap string Value) : string :=
  foldr (fun kv acc => fst kv +:+ ":" +:+ repr (snd kv) +:+ ", " +:+ acc) ""
        (map_to_list fields).

(** Modelled from the spec: how [_utils] names a cache entry is not in the
    file.  The spec keys the cache by a hash of the parameter values,
    optionally including the random seed: the name is the class, the
    digest of every field but the seed and, when the seed has to match,
    the seed. *)
Definition hashname (p : ParamSet) : string :=
  class_name p +:+ "_" +:+ digest (serialise (delete "RANDOM_SEED" (pystruct p))).

Definition seed_of (p : ParamSet) : string :=
  from_option repr "None" (pystruct p !! "RANDOM_SEED").

Definition cache_name (match_seed : bool) (p : ParamSet) : string :=
  if match_seed then hashname p +:+ "_r" +:+ seed_of p else hashname p.

(** Modelled from the spec: the cache directory, newest entry first.  An
    entry is written under the name with the seed; a lookup that ignores
    the seed takes the first entry whose other fields hash alike. *)
Definition Cache : Type := list (string * string * Payload).

Definition cache_write (c : Cache) (p : ParamSet) (box : Payload) : Cache :=
  (hashname p, seed_of p, box) :: c.

Definition cache_find (c : Cache) (match_seed : bool) (p : ParamSet) : option Payload :=
  snd <$>
    List.find
      (fun e => String.eqb (fst (fst e)) (hashname p)
                && (negb match_seed || String.eqb (snd (fst e)) (seed_of p)))
      c.

(** Two instances hold the same field values, the seed counted only when
    [match_seed] is set. *)
Definition same_fields (match_seed : bool) (p q : ParamSet) : Prop :=
  forall key : string,
    match_seed = true \/ key <> "RANDOM_SEED" ->
    pystruct p !! key = pystruct q !! key.

End CacheIdentity.

(* ====================================================================== *)
(** ** Reference instances, to run the definitions on examples             *)
(* ====================================================================== *)

(** A series evaluation of [pow] on floats, [exp (y * ln x)], precise enough
    to tell powers of ten apart. *)
Fixpoint exp_terms (n : nat) (i term acc z : float) : float :=
  match n with
  | O => acc
  | S n' =>
      let term' := (term * z / i)%float in
      exp_terms n' (i + 1)%float term' (acc + term')%float z
  end.

Fixpoint squarings (n : nat) (x : float) : float :=
  match n with
  | O => x
  | S n' => squarings n' (x * x)%float
  end.

Definition series_exp (z : float) : float :=
  squarings 10 (exp_terms 30 1%float 1%float 1%float (z / 1024)%float).

Fixpoint ln_terms (n : nat) (k tpow acc t2 : float) : float :=
  match n with
  | O => acc
  | S n' => ln_terms n' (k + 2)%float (tpow * t2)%float (acc + tpow / k)%float t2
  end.

Definition series_ln (x : float) : float :=
  let t := ((x - 1) / (x + 1))%float in
  (2 * ln_terms 200 1%float t 0%float (t * t))%float.

Definition series_pow (x y : float) : float := series_exp (y * series_ln x)%float.

(** The values astropy publishes for [Planck15], the engine's [NU_over_EV],
    and [series_pow] for [pow]. *)
Definition reference_numerics : Numerics :=
  {| Planck15_h := 0.6774%float;
     Planck15_Om0 := 0.3075%float;
     Planck15_Ob0 := 0.0486%float;
     NU_over_EV := 241798900000000%float;
     float_pow := series_pow |}.

(** A linear congruential generator behind [randint]. *)
Definition lcg_random : RandomState :=
  {| Rng := Z;
     randint := fun low high g =>
       (low + g mod (high - low), (6364136223846793005 * g + 1442695040888963407) mod 2 ^ 64) |}.

(** Python's [str] on the field values of the examples. *)
Definition example_repr (v : Value) : string :=
  match v with
  | VNone => "None"
  | VBool true => "True"
  | VBool false => "False"
  | VInt n => pretty n
  | VFloat x => if PrimFloat.eqb x 0.82%float then "0.82" else "<float>"
  end.

(** A cache directory with one slot per class of output object, arrays
    that only remember where they came from, and the backend over them. *)
Inductive Origin : Type :=
| Zeros
| FromCache
| FromEngine.

Definition class_of {Payload : Type} (b : AnyBox Payload) : BoxClass :=
  match b with
  | IsInitialConditions _ => InitialConditions
  | IsPerturbedField _ => PerturbedField
  | IsIonizedBox b => box_class (OutputStruct.kwargs b)
  end.

Definition BoxClass_eqb (a b : BoxClass) : bool :=
  match a, b with
  | InitialConditions, InitialConditions
  | PerturbedField, PerturbedField
  | IonizedBox, IonizedBox
  | TsBox, TsBox => true
  | _, _ => false
  end.

Definition slot_backend : Backend Origin (list BoxClass) :=
  {| allocated := fun _ _ => Zeros;
     find_existing := fun d b _ _ _ =>
       if existsb (BoxClass_eqb (class_of b)) d then Some FromCache else None;
     written := fun d b _ _ => class_of b :: d;
     computed := fun _ => FromEngine |}.

(** The kind of an event and the class of object it is about. *)
Definition class_of_event {Payload : Type} (ev : Event Payload) : string * BoxClass :=
  match ev with
  | Read b _ _ _ => ("read", class_of b)
  | Engine (ComputeInitialConditions _ _ _) => ("engine", InitialConditions)
  | Engine (ComputePerturbField _ _ _) => ("engine", PerturbedField)
  | Engine (ComputeIonizedBox _ _ _) => ("engine", IonizedBox)
  | Engine (ComputeTsBox _ _ _) => ("engine", TsBox)
  | Write b _ _ => ("write", class_of b)
  end.


(* ====================================================================== *)
(** ** The cache protocol of one pipeline stage, stated                    *)
(* ====================================================================== *)

Section Protocol.
Context {Payload Disk : Type} `{Backend Payload Disk}.

(** The world after one more event. *)
Definition logged (w : World Payload Disk) (ev : Event Payload) : World Payload Disk :=
  {| disk := disk w; trace := trace w ++ [ev] |}.

(** The world after [box] has been written. *)
Definition stored {K : Type} (as_box : OutputStruct Payload K -> AnyBox Payload)
    (box : OutputStruct Payload K) (direc fname : option string)
    (w : World Payload Disk) : World Payload Disk :=
  {| disk := written (disk w) (as_box box) direc fname;
     trace := trace w ++ [Write (as_box box) direc fname] |}.

(** The object a cache hit hands back, and the one an engine call leaves. *)
Definition loaded {K : Type} (box : OutputStruct Payload K) (p : Payload)
    : OutputStruct Payload K :=
  set_filled (set_arrays box p) true.

Definition populated {K : Type} (box : OutputStruct Payload K) (call : EngineCall Payload)
    : OutputStruct Payload K :=
  set_filled (set_arrays box (computed call)) true.

(** "Must compute": the engine routine runs, the object is marked filled,
    it is written if and only if [write] is set, and it is returned. *)
Definition computes_and_stores {K : Type}
    (as_box : OutputStruct Payload K -> AnyBox Payload)
    (box : OutputStruct Payload K) (call : EngineCall Payload) (write : bool)
    (direc fname : option string) (w : World Payload Disk)
    : Result (OutputStruct Payload K) * World Payload Disk :=
  let w1 := logged w (Engine call) in
  (Ok (populated box call),
   if write then stored as_box (populated box call) direc fname w1 else w1).

(** Read-through: one read of the cache; on a hit the cached object is
    returned and nothing else happens, on a miss the stage must compute. *)
Definition reads_through {K : Type}
    (as_box : OutputStruct Payload K -> AnyBox Payload)
    (box : OutputStruct Payload K) (call : EngineCall Payload) (write : bool)
    (direc fname : option string) (match_seed : bool) (w : World Payload Disk)
    : Result (OutputStruct Payload K) * World Payload Disk :=
  let w1 := logged w (Read (as_box box) direc fname match_seed) in
  match find_existing (disk w) (as_box box) direc fname match_seed with
  | Some p => (Ok (loaded box p), w1)
  | None => computes_and_stores as_box box call write direc fname w1
  end.

(** One stage: the cache is consulted unless [regenerate] is set. *)
Definition stage {K : Type}
    (as_box : OutputStruct Payload K -> AnyBox Payload) (regenerate : bool)
    (box : OutputStruct Payload K) (call : EngineCall Payload) (write : bool)
    (direc fname : option string) (match_seed : bool) (w : World Payload Disk)
    : Result (OutputStruct Payload K) * World Payload Disk :=
  if regenerate then computes_and_stores as_box box call write direc fname w
  else reads_through as_box box call write direc fname match_seed w.

(** The parameters [perturb_field] works with: those of [init_boxes] when
    it is given, else the arguments, else the defaults. *)
Definition effective_user_params (init_boxes : option (OutputStruct Payload unit))
    (user_params : option UserParams) : UserParams :=
  match init_boxes with
  | Some b => OutputStruct.user_params b
  | None => default (UserParams_new None None None) user_params
  end.

Definition effective_cosmo_params `{Numerics}
    (init_boxes : option (OutputStruct Payload unit))
    (cosmo_params : option CosmoParams) : CosmoParams :=
  match init_boxes with
  | Some b => OutputStruct.cosmo_params b
  | None => default (CosmoParams_new None None None None None None) cosmo_params
  end.

(** An upstream object has to be produced: none was passed, or the one
    passed is not filled. *)
Definition needs_upstream {K : Type} (given : option (OutputStruct Payload K)) : bool :=
  match given with
  | Some b => negb (OutputStruct.filled b)
  | None => true
  end.

(** The redshift [ionize_box] works at: that of [perturbed_field] when one
    is given, else the argument. *)
Definition effective_redshift (perturbed_field : option (OutputStruct Payload float))
    (redshift : option float) : option float :=
  match perturbed_field with
  | Some f => Some (PerturbedField_redshift f)
  | None => redshift
  end.



(** The class, the fresh object and the engine routine of [ionize_box]. *)
Definition ionize_class (do_spin_temp : bool) : BoxClass :=
  if do_spin_temp then TsBox else IonizedBox.

Definition ionize_call (do_spin_temp : bool) (z : float)
    (perturbed_field : OutputStruct Payload float)
    (box : OutputStruct Payload IonizedKw) : EngineCall Payload :=
  if do_spin_temp then ComputeTsBox z perturbed_field box
  else ComputeIonizedBox z perturbed_field box.

End Protocol.

(* ====================================================================== *)
(** ** What a call leaves in the trace, stated                             *)
(* ====================================================================== *)



(** The events of one pipeline stage, by class, in the order of the code:
    the cache read, the engine call, the write. *)
Definition stage_order (c : BoxClass) : list (string * BoxClass) :=
  [("read", c); ("engine", c); ("write", c)].

(** The events of the whole pipeline up to an ionized box of class [c]. *)
Definition pipeline_order (c : BoxClass) : list (string * BoxClass) :=
  stage_order InitialConditions ++ stage_order PerturbedField ++ stage_order c.

Section Observations.
Context {Payload Disk : Type} `{Backend Payload Disk}.

(** A lookup that found an entry. *)
Definition is_hit {A : Type} (found : option A) : bool :=
  match found with
  | Some _ => true
  | None => false
  end.

(** The events one stage appends when it starts on the directory [d]: the
    read unless [regenerate] is set, then, under [regenerate] or on a
    miss, the engine call and, when [write] is set, the write. *)
Definition stage_events {K : Type}
    (as_box : OutputStruct Payload K -> AnyBox Payload) (regenerate : bool)
    (box : OutputStruct Payload K) (call : EngineCall Payload) (write : bool)
    (direc fname : option string) (match_seed : bool) (d : Disk)
    : list (Event Payload) :=
  (if regenerate then [] else [Read (as_box box) direc fname match_seed])
  ++ (if regenerate
         || negb (is_hit (find_existing d (as_box box) direc fname match_seed))
      then Engine call
           :: (if write then [Write (as_box (populated box call)) direc fname] else [])
      else []).


End Observations.

(* ====================================================================== *)
(** ** Facts about the parameter structures                                *)
(* ====================================================================== *)

Lemma rbind_Ok {A B : Type} (r : Result A) (k : A -> Result B) (b : B) :
  rbind r k = Ok b -> exists a, r = Ok a /\ k a = Ok b.
Proof.
  destruct r as [a|e]; simpl; intros Hk.
  - exists a; split; [reflexivity | exact Hk].
  - discriminate Hk.
Qed.

Lemma np_zeros_Ok (n : Z) (a : ndarray) :
  np_zeros n = Ok a -> 0 <= n /\ Z.of_nat (length a) = n.
Proof.
  unfold np_zeros. destruct (n <? 0) eqn:Hneg; intros Ha; [discriminate Ha|].
  destruct (npy_intp_max <? n * float32_itemsize); [discriminate Ha|].
  apply Z.ltb_ge in Hneg. injection Ha as <-.
  split; [exact Hneg|]. rewrite repeat_length. apply Z2Nat.id, Hneg.
Qed.

(** What [InitialConditions._init_boxes] sets and returns once every
    allocation has gone through. *)
Lemma InitialConditions_init_boxes_Ok (up : UserParams) (b : InitBoxes) :
  InitialConditions_init_boxes up = Ok b ->
  exists low1 low2 low3 hi : ndarray,
    b = {| attributes := [("lowres_density", low1); ("lowres_vz", low2);
                          ("lowres_vz_2LPT", low3); ("hires_density", hi)];
           returned_names := ["lowres_density"; "lowres_vz"; "lowre_vz_2LPT";
                              "hires_density"] |}
    /\ Z.of_nat (length low1) = HII_tot_num_pixels up
    /\ Z.of_nat (length low2) = HII_tot_num_pixels up
    /\ Z.of_nat (length low3) = HII_tot_num_pixels up
    /\ Z.of_nat (length hi) = tot_fft_num_pixels up.
Proof.
  unfold InitialConditions_init_boxes. intros Hb.
  apply rbind_Ok in Hb as (low1 & H1 & Hb).
  apply rbind_Ok in Hb as (low2 & H2 & Hb).
  apply rbind_Ok in Hb as (low3 & H3 & Hb).
  apply rbind_Ok in Hb as (hi & H4 & Hb).
  injection Hb as <-.
  exists low1, low2, low3, hi.
  apply np_zeros_Ok in H1, H2, H3, H4. intuition.
Qed.

(** C6.  Without an explicit [DIM] the property [DIM] is [4 * HII_DIM];
    [tot_fft_num_pixels] is [DIM] cubed and [HII_tot_num_pixels] is
    [HII_DIM] cubed; and the arrays [InitialConditions._init_boxes]
    allocates have these lengths: [HII_DIM ^ 3] for the three low
    resolution boxes and [DIM ^ 3] for [hires_density]. *)
Theorem grid_dimensions_and_box_lengths :
  (forall (BOX_LEN : option float) (HII_DIM' : option Z),
      let up := UserParams_new BOX_LEN None HII_DIM' in
      DIM up = 4 * HII_DIM up)
  /\ (forall up : UserParams,
        tot_fft_num_pixels up = DIM up * DIM up * DIM up
        /\ HII_tot_num_pixels up = HII_DIM up * HII_DIM up * HII_DIM up)
  /\ (forall (up : UserParams) (b : InitBoxes),
        InitialConditions_init_boxes up = Ok b ->
        exists low1 low2 low3 hi : ndarray,
          attribute b "lowres_density" = Some low1
          /\ attribute b "lowres_vz" = Some low2
          /\ attribute b "lowres_vz_2LPT" = Some low3
          /\ attribute b "hires_density" = Some hi
          /\ Z.of_nat (length low1) = HII_DIM up ^ 3
          /\ Z.of_nat (length low2) = HII_DIM up ^ 3
          /\ Z.of_nat (length low3) = HII_DIM up ^ 3
          /\ Z.of_nat (length hi) = DIM up ^ 3).
Proof.
  split; [|split].
  - intros BOX_LEN HII_DIM'. reflexivity.
  - intros up. unfold tot_fft_num_pixels, HII_tot_num_pixels. split; ring.
  - intros up b Hb.
    destruct (InitialConditions_init_boxes_Ok up b Hb)
      as (low1 & low2 & low3 & hi & -> & L1 & L2 & L3 & L4).
    exists low1, low2, low3, hi.
    unfold HII_tot_num_pixels in L1, L2, L3. unfold tot_fft_num_pixels in L4.
    repeat split; assumption.
Qed.

(** [UserParams(HII_DIM=2)]: three boxes of 8 cells and one of 512. *)
Lemma grid_dimensions_and_box_lengths_witness :
  exists low1 low2 low3 hi : ndarray,
    (exists b, InitialConditions_init_boxes (UserParams_new None None (Some 2)) = Ok b
               /\ attribute b "lowres_density" = Some low1
               /\ attribute b "lowres_vz" = Some low2
               /\ attribute b "lowres_vz_2LPT" = Some low3
               /\ attribute b "hires_density" = Some hi)
    /\ length low1 = 8%nat /\ length low2 = 8%nat /\ length low3 = 8%nat
    /\ length hi = 512%nat.
Proof.
  destruct grid_dimensions_and_box_lengths as (_ & _ & Hlen).
  destruct (InitialConditions_init_boxes (UserParams_new None None (Some 2)))
    as [b|e] eqn:Hb; [|vm_compute in Hb; discriminate Hb].
  destruct (Hlen _ b Hb) as (low1 & low2 & low3 & hi & A1 & A2 & A3 & A4 & L1 & L2 & L3 & L4).
  exists low1, low2, low3, hi.
  split; [exists b; repeat split; assumption|].
  change (HII_DIM (UserParams_new None None (Some 2)) ^ 3) with 8 in L1, L2, L3.
  change (DIM (UserParams_new None None (Some 2)) ^ 3) with 512 in L4.
  repeat split; lia.
Defined.

(** The returned list and the attributes set never agree: the third name is
    returned as [lowre_vz_2LPT] and set as [lowres_vz_2LPT]. *)
Lemma InitialConditions_names_never_match (up : UserParams) (b : InitBoxes) :
  InitialConditions_init_boxes up = Ok b -> ~ names_match_attributes b.
Proof.
  intros Hb Hmatch.
  destruct (InitialConditions_init_boxes_Ok up b Hb)
    as (low1 & low2 & low3 & hi & -> & _).
  destruct (Hmatch "lowre_vz_2LPT") as [Hin _].
  simpl in Hin.
  destruct Hin as [H|[H|[H|[H|[]]]]]; [tauto | discriminate H ..].
Qed.

(** The sibling [PerturbedField._init_boxes] returns the names it sets. *)
Lemma PerturbedField_names_match (up : UserParams) (b : InitBoxes) :
  PerturbedField_init_boxes up = Ok b -> names_match_attributes b.
Proof.
  unfold PerturbedField_init_boxes. intros Hb.
  apply rbind_Ok in Hb as (d & _ & Hb).
  apply rbind_Ok in Hb as (v & _ & Hb).
  injection Hb as <-. intros name. reflexivity.
Qed.

(** C9 (fails on the code).  For [InitialConditions(UserParams(HII_DIM=1),
    ...)] the list [_init_boxes] returns holds [lowre_vz_2LPT], which is no
    attribute it has set, and misses [lowres_vz_2LPT], which is one: the
    returned names are not the names of the arrays allocated. *)
Theorem InitialConditions_returned_names_differ :
  exists b : InitBoxes,
    InitialConditions_init_boxes (UserParams_new None None (Some 1)) = Ok b
    /\ In "lowre_vz_2LPT" (returned_names b)
    /\ attribute b "lowre_vz_2LPT" = None
    /\ ~ In "lowres_vz_2LPT" (returned_names b)
    /\ attribute b "lowres_vz_2LPT" <> None
    /\ ~ names_match_attributes b.
Proof.
  destruct (InitialConditions_init_boxes (UserParams_new None None (Some 1)))
    as [b|e] eqn:Hb; [|vm_compute in Hb; discriminate Hb].
  exists b. pose proof (InitialConditions_names_never_match _ _ Hb) as Hne.
  destruct (InitialConditions_init_boxes_Ok _ _ Hb)
    as (low1 & low2 & low3 & hi & -> & _).
  repeat split.
  - simpl. tauto.
  - simpl. intros [H|[H|[H|[H|[]]]]]; discriminate H.
  - discriminate.
  - exact Hne.
Qed.

(** C7, as amended.  [ION_Tvir_MIN] and [L_X] read as ten to the power of
    the stored value.  [X_RAY_Tvir_MIN] reads as ten to the power of its
    stored value when that value is a non-zero number, and as the
    exponentiated [ION_Tvir_MIN] when it is [None] or zero. *)
Theorem log_parameters_exponentiated_on_read `{Numerics} (self : AstroParams) :
  ION_Tvir_MIN self = float_pow 10%float (_ION_Tvir_MIN self)
  /\ L_X self = float_pow 10%float (_L_X self)
  /\ (forall x : float,
        _X_RAY_Tvir_MIN self = Some x -> float_truthy x = true ->
        X_RAY_Tvir_MIN self = float_pow 10%float x)
  /\ (forall x : float,
        _X_RAY_Tvir_MIN self = Some x -> float_truthy x = false ->
        X_RAY_Tvir_MIN self = float_pow 10%float (_ION_Tvir_MIN self))
  /\ (_X_RAY_Tvir_MIN self = None ->
        X_RAY_Tvir_MIN self = float_pow 10%float (_ION_Tvir_MIN self)).
Proof.
  unfold X_RAY_Tvir_MIN, ION_Tvir_MIN, L_X, pow10.
  repeat split.
  - intros x -> ->. reflexivity.
  - intros x -> ->. reflexivity.
  - intros ->. reflexivity.
Qed.

(** C7 as stated fails: [AstroParams(False, X_RAY_Tvir_MIN=0.0)] was given a
    value, and reading [X_RAY_Tvir_MIN] returns the exponentiated
    [ION_Tvir_MIN] (about 50000) and not ten to the power of zero. *)
Lemma X_RAY_Tvir_MIN_zero_is_unset :
  let self := AstroParams_new false None None None None None None None None None
                (Some 0%float) None None None None None None None None in
  _X_RAY_Tvir_MIN self = Some 0%float
  /\ @X_RAY_Tvir_MIN reference_numerics self = @ION_Tvir_MIN reference_numerics self
  /\ @X_RAY_Tvir_MIN reference_numerics self
     <> @float_pow reference_numerics 10%float 0%float.
Proof.
  repeat split.
  intros Heq.
  assert (Hcmp : PrimFloat.eqb
                   (@X_RAY_Tvir_MIN reference_numerics
                      (AstroParams_new false None None None None None None None None
                         None (Some 0%float) None None None None None None None None))
                   (@float_pow reference_numerics 10%float 0%float) = false)
    by (vm_compute; reflexivity).
  rewrite Heq in Hcmp. vm_compute in Hcmp. discriminate Hcmp.
Qed.

(** [AstroParams(False, X_RAY_Tvir_MIN=5.0)] reads back [10 ** 5.0]. *)
Lemma log_parameters_exponentiated_on_read_witness :
  @X_RAY_Tvir_MIN reference_numerics
    (AstroParams_new false None None None None None None None None None
       (Some 5%float) None None None None None None None None)
  = @float_pow reference_numerics 10%float 5%float.
Proof.
  apply (proj1 (proj2 (proj2
           (@log_parameters_exponentiated_on_read reference_numerics
              (AstroParams_new false None None None None None None None None None
                 (Some 5%float) None None None None None None None None))))).
  - reflexivity.
  - reflexivity.
Defined.

(** A read of [RANDOM_SEED] on an instance that holds a non-zero seed
    returns it and changes nothing. *)
Lemma RANDOM_SEED_stored `{RandomState} (fuel : nat) (self : CosmoParams) (g : Rng) (n : Z) :
  _RANDOM_SEED self = Some n -> n <> 0 ->
  RANDOM_SEED (S fuel) self g = Some (n, self, g).
Proof.
  intros Hseed Hn. simpl. rewrite Hseed. simpl.
  unfold int_truthy. destruct (n =? 0) eqn:Hz; [apply Z.eqb_eq in Hz; lia|].
  reflexivity.
Qed.

(** C10.  On a [CosmoParams] whose seed is [None], the first read of
    [RANDOM_SEED] returns (the loop needs two tests of its condition) one
    draw of [randint(1, 1e12)], an integer from 1 to 10^12 - 1, and stores
    it; every later read returns the stored integer and leaves the
    instance and the generator alone. *)
Theorem random_seed_drawn_once_then_kept `{RandomState}
    (Hrange : randint_in_range) (self : CosmoParams) (g : Rng) (fuel : nat) :
  _RANDOM_SEED self = None -> (2 <= fuel)%nat ->
  exists (n : Z) (self' : CosmoParams) (g' : Rng),
    RANDOM_SEED fuel self g = Some (n, self', g')
    /\ (n, g') = randint 1 (10 ^ 12) g
    /\ 1 <= n <= 10 ^ 12 - 1
    /\ _RANDOM_SEED self' = Some n
    /\ forall (later : nat) (g2 : Rng),
         (1 <= later)%nat -> RANDOM_SEED later self' g2 = Some (n, self', g2).
Proof.
  intros Hnone Hfuel.
  destruct fuel as [|[|fuel]]; [lia | lia |].
  pose proof (Hrange 1 (10 ^ 12) g ltac:(lia)) as Hn.
  destruct (randint 1 (10 ^ 12) g) as [n g'] eqn:Hdraw. simpl in Hn.
  exists n, (set_RANDOM_SEED self (Some n)), g'.
  assert (Hkept : forall (later : nat) (g2 : Rng),
             RANDOM_SEED (S later) (set_RANDOM_SEED self (Some n)) g2
             = Some (n, set_RANDOM_SEED self (Some n), g2)).
  { intros later g2. apply RANDOM_SEED_stored; [reflexivity | lia]. }
  repeat split.
  - change (RANDOM_SEED (S (S fuel)) self g)
      with (if negb (opt_truthy int_truthy (_RANDOM_SEED self))
            then let (m, g1) := randint 1 (10 ^ 12) g in
                 RANDOM_SEED (S fuel) (set_RANDOM_SEED self (Some m)) g1
            else match _RANDOM_SEED self with
                 | Some m => Some (m, self, g)
                 | None => None
                 end).
    rewrite Hnone, Hdraw. simpl negb. cbv iota. apply Hkept.
  - lia.
  - lia.
  - intros [|later] g2 Hlater; [lia | apply Hkept].
Qed.

(** [lcg_random] keeps numpy's contract. *)
Lemma lcg_random_in_range : @randint_in_range lcg_random.
Proof.
  intros low high g Hlt. simpl.
  pose proof (Z.mod_pos_bound g (high - low) ltac:(lia)). lia.
Qed.

Lemma random_seed_drawn_once_then_kept_witness :
  exists (n : Z) (self' : CosmoParams) (g' : Z),
    @RANDOM_SEED lcg_random 2
      (@CosmoParams_new reference_numerics None None None None None None) 42
    = Some (n, self', g')
    /\ (n, g') = @randint lcg_random 1 (10 ^ 12) 42
    /\ 1 <= n <= 10 ^ 12 - 1
    /\ _RANDOM_SEED self' = Some n
    /\ forall (later : nat) (g2 : Z),
         (1 <= later)%nat -> @RANDOM_SEED lcg_random later self' g2 = Some (n, self', g2).
Proof.
  apply (@random_seed_drawn_once_then_kept lcg_random lcg_random_in_range
           (@CosmoParams_new reference_numerics None None None None None None) 42 2%nat).
  - reflexivity.
  - lia.
Defined.

(** With a base class that defines neither [GenerateNewICs] nor
    [USE_TS_FLUCT], [_logic] stops at its first attribute read, whatever
    the flags are. *)
Lemma FlagOptions_logic_bare_base (self : FlagOptions) :
  @FlagOptions_logic bare_base self = Raise (AttributeError "GenerateNewICs").
Proof. reflexivity. Qed.

(** What the four checks of [_logic] would decide if both names resolved to
    [False]: only the [USE_FCOLL_IONISATION_TABLE] and [INHOMO_RECO] pair
    is refused, with a [ValueError]. *)
Lemma FlagOptions_logic_when_resolved (self : FlagOptions) :
  @FlagOptions_logic {| base_attr := fun _ => Some false |} self
  = if USE_FCOLL_IONISATION_TABLE self && FLAG_INHOMO_RECO self
    then Raise ValueError else Ok tt.
Proof.
  destruct self as [z s u f i]. destruct u, i; reflexivity.
Qed.

(** C4 (fails on the code).  [_logic] reads [self.GenerateNewICs] first, and
    neither that name nor [USE_TS_FLUCT] is a key of
    [FlagOptions._defaults_]: with no other source for the attribute,
    [FlagOptions()] with every flag at its default raises an
    [AttributeError] instead of constructing, and
    [FlagOptions(USE_FCOLL_IONISATION_TABLE=True, INHOMO_RECO=True)] raises
    that [AttributeError] and not a [ValueError]. *)
Theorem FlagOptions_construction_stops_at_missing_attribute :
  @FlagOptions_new bare_base None None None None None
  = Raise (AttributeError "GenerateNewICs")
  /\ @FlagOptions_new bare_base None None (Some true) None (Some true)
     = Raise (AttributeError "GenerateNewICs")
  /\ @FlagOptions_new bare_base None None (Some true) None (Some true)
     <> Raise ValueError.
Proof.
  split; [|split].
  - unfold FlagOptions_new. rewrite FlagOptions_logic_bare_base. reflexivity.
  - unfold FlagOptions_new. rewrite FlagOptions_logic_bare_base. reflexivity.
  - unfold FlagOptions_new. rewrite FlagOptions_logic_bare_base. discriminate.
Qed.

(* ====================================================================== *)
(** ** Facts about the wrapping functions                                  *)
(* ====================================================================== *)

Section WrapperFacts.
Context {Payload Disk : Type} `{Backend Payload Disk} `{Numerics}.

Lemma bind_Ok {A B : Type} (m : M A) (k : A -> M B) (w w' : World Payload Disk) (a : A) :
  m w = (Ok a, w') -> bind m k w = k a w'.
Proof. intros Hm. unfold bind. rewrite Hm. reflexivity. Qed.


(** What [read] does: one [Read] event, then the arrays of the cache entry
    or an [IOError]. *)
Lemma OutputStruct_read_eq {K : Type} (as_box : OutputStruct Payload K -> AnyBox Payload)
    (box : OutputStruct Payload K) (direc fname : option string) (match_seed : bool)
    (w : World Payload Disk) :
  OutputStruct_read as_box box direc fname match_seed w
  = match find_existing (disk w) (as_box box) direc fname match_seed with
    | Some p => (Ok (loaded box p), logged w (Read (as_box box) direc fname match_seed))
    | None => (Raise IOError, logged w (Read (as_box box) direc fname match_seed))
    end.
Proof. reflexivity. Qed.

(** The guarded read: skipped under [regenerate], otherwise a hit returns
    early and a miss, caught, falls through. *)
Lemma read_unless_regenerate_eq {K : Type}
    (as_box : OutputStruct Payload K -> AnyBox Payload) (regenerate : bool)
    (box : OutputStruct Payload K) (direc fname : option string) (match_seed : bool)
    (w : World Payload Disk) :
  read_unless_regenerate as_box regenerate box direc fname match_seed w
  = if regenerate then (Ok None, w)
    else match find_existing (disk w) (as_box box) direc fname match_seed with
         | Some p => (Ok (Some (loaded box p)),
                      logged w (Read (as_box box) direc fname match_seed))
         | None => (Ok None, logged w (Read (as_box box) direc fname match_seed))
         end.
Proof.
  unfold read_unless_regenerate. destruct regenerate; simpl; [reflexivity|].
  unfold try_except_IOError, bind. rewrite OutputStruct_read_eq.
  destruct (find_existing (disk w) (as_box box) direc fname match_seed); reflexivity.
Qed.

(** The tail the three functions share after the guarded read. *)
Lemma guarded_read_then_compute {K : Type}
    (as_box : OutputStruct Payload K -> AnyBox Payload) (regenerate : bool)
    (box : OutputStruct Payload K) (call : EngineCall Payload) (write : bool)
    (direc fname : option string) (match_seed : bool) (w : World Payload Disk) :
  bind (read_unless_regenerate as_box regenerate box direc fname match_seed)
    (fun existing =>
       match existing with
       | Some found => ret found
       | None =>
           bind (lib call box)
             (fun computed_box =>
                bind (if write
                      then OutputStruct_write as_box (set_filled computed_box true) direc fname
                      else ret tt)
                  (fun _ => ret (set_filled computed_box true)))
       end) w
  = stage as_box regenerate box call write direc fname match_seed w.
Proof.
  unfold bind at 1. rewrite read_unless_regenerate_eq.
  unfold stage, reads_through.
  destruct regenerate.
  - destruct write; reflexivity.
  - destruct (find_existing (disk w) (as_box box) direc fname match_seed);
      [reflexivity | destruct write; reflexivity].
Qed.

(** [initial_conditions] is one stage over a fresh [InitialConditions]. *)
Lemma initial_conditions_stage (up : UserParams) (cp : CosmoParams)
    (regenerate write : bool) (direc fname : option string) (match_seed : bool)
    (w : World Payload Disk) :
  initial_conditions up cp regenerate write direc fname match_seed w
  = stage IsInitialConditions regenerate (InitialConditions_new up cp)
      (ComputeInitialConditions up cp (InitialConditions_new up cp))
      write direc fname match_seed w.
Proof.
  unfold initial_conditions. apply guarded_read_then_compute.
Qed.

(** A stage always returns, and what it returns is filled. *)
Lemma stage_returns_filled {K : Type}
    (as_box : OutputStruct Payload K -> AnyBox Payload) (regenerate : bool)
    (box : OutputStruct Payload K) (call : EngineCall Payload) (write : bool)
    (direc fname : option string) (match_seed : bool) (w : World Payload Disk) :
  exists (b : OutputStruct Payload K) (w' : World Payload Disk),
    stage as_box regenerate box call write direc fname match_seed w = (Ok b, w')
    /\ OutputStruct.filled b = true
    /\ OutputStruct.user_params b = OutputStruct.user_params box
    /\ OutputStruct.cosmo_params b = OutputStruct.cosmo_params box
    /\ OutputStruct.kwargs b = OutputStruct.kwargs box.
Proof.
  unfold stage, reads_through, computes_and_stores.
  destruct regenerate.
  - eexists _, _. split; [reflexivity|]. repeat split.
  - destruct (find_existing (disk w) (as_box box) direc fname match_seed).
    + eexists _, _. split; [reflexivity|]. repeat split.
    + eexists _, _. split; [reflexivity|]. repeat split.
Qed.

Lemma initial_conditions_returns (up : UserParams) (cp : CosmoParams)
    (regenerate write : bool) (direc fname : option string) (match_seed : bool)
    (w : World Payload Disk) :
  exists (b : OutputStruct Payload unit) (w' : World Payload Disk),
    initial_conditions up cp regenerate write direc fname match_seed w = (Ok b, w')
    /\ OutputStruct.filled b = true
    /\ OutputStruct.user_params b = up
    /\ OutputStruct.cosmo_params b = cp.
Proof.
  rewrite initial_conditions_stage.
  destruct (stage_returns_filled IsInitialConditions regenerate
              (InitialConditions_new up cp)
              (ComputeInitialConditions up cp (InitialConditions_new up cp))
              write direc fname match_seed w)
    as (b & w' & Hrun & Hfilled & Hup & Hcp & _).
  exists b, w'. repeat split; assumption.
Qed.

(** [perturb_field] is one stage over a fresh [PerturbedField], run after
    [initial_conditions] whenever no filled [init_boxes] was passed; the
    engine routine receives the initial conditions so obtained. *)
Lemma perturb_field_stage (z : float) (init_boxes : option (OutputStruct Payload unit))
    (up : option UserParams) (cp : option CosmoParams)
    (regenerate write : bool) (direc fname : option string) (match_seed : bool)
    (w : World Payload Disk) :
  let up' := effective_user_params init_boxes up in
  let cp' := effective_cosmo_params init_boxes cp in
  let fields := PerturbedField_new up' cp' z in
  exists (ib : OutputStruct Payload unit) (w1 : World Payload Disk),
    (if needs_upstream init_boxes
     then initial_conditions up' cp' regenerate write direc fname false w = (Ok ib, w1)
     else init_boxes = Some ib /\ w1 = w)
    /\ OutputStruct.filled ib = true
    /\ perturb_field z init_boxes up cp regenerate write direc fname match_seed w
       = stage IsPerturbedField regenerate fields (ComputePerturbField z ib fields)
           write direc fname match_seed w1.
Proof.
  intros up' cp' fields.
  destruct (initial_conditions_returns up' cp' regenerate write direc fname false w)
    as (ib & w1 & Hic & Hfilled & _).
  unfold perturb_field.
  destruct init_boxes as [b|]; simpl needs_upstream.
  - destruct (OutputStruct.filled b) eqn:Hb; simpl negb; cbv iota.
    + exists b, w. split; [split; reflexivity|]. split; [exact Hb|].
      unfold bind at 1. unfold ret at 1. apply guarded_read_then_compute.
    + exists ib, w1. split; [exact Hic|]. split; [exact Hfilled|].
      rewrite (bind_Ok _ _ _ _ _ Hic). apply guarded_read_then_compute.
  - exists ib, w1. split; [exact Hic|]. split; [exact Hfilled|].
    rewrite (bind_Ok _ _ _ _ _ Hic). apply guarded_read_then_compute.
Qed.

Lemma perturb_field_returns (z : float) (init_boxes : option (OutputStruct Payload unit))
    (up : option UserParams) (cp : option CosmoParams)
    (regenerate write : bool) (direc fname : option string) (match_seed : bool)
    (w : World Payload Disk) :
  exists (f : OutputStruct Payload float) (w' : World Payload Disk),
    perturb_field z init_boxes up cp regenerate write direc fname match_seed w = (Ok f, w')
    /\ OutputStruct.filled f = true
    /\ PerturbedField_redshift f = z.
Proof.
  destruct (perturb_field_stage z init_boxes up cp regenerate write direc fname
              match_seed w) as (ib & w1 & _ & _ & ->).
  destruct (stage_returns_filled IsPerturbedField regenerate
              (PerturbedField_new (effective_user_params init_boxes up)
                 (effective_cosmo_params init_boxes cp) z)
              (ComputePerturbField z ib
                 (PerturbedField_new (effective_user_params init_boxes up)
                    (effective_cosmo_params init_boxes cp) z))
              write direc fname match_seed w1)
    as (f & w' & Hrun & Hfilled & _ & _ & Hkw).
  exists f, w'. repeat split; assumption.
Qed.

(** [ionize_box] refuses to run without a redshift; otherwise it is one
    stage over a fresh [IonizedBox] or [TsBox], run after [perturb_field]
    whenever no filled [perturbed_field] was passed; the engine routine
    receives the perturbed field so obtained. *)
Lemma ionize_box_stage (astro : AstroParams) (flags : FlagOptions)
    (redshift : option float) (perturbed_field : option (OutputStruct Payload float))
    (init_boxes : option (OutputStruct Payload unit))
    (cp : option CosmoParams) (up : option UserParams)
    (regenerate write : bool) (direc fname : option string) (match_seed : bool)
    (do_spin_temp : bool) (w : World Payload Disk) :
  match effective_redshift perturbed_field redshift with
  | None =>
      ionize_box astro flags redshift perturbed_field init_boxes cp up
        regenerate write direc fname match_seed do_spin_temp w
      = (Raise ValueError, w)
  | Some z =>
      exists (f : OutputStruct Payload float) (w1 : World Payload Disk),
        (if needs_upstream perturbed_field
         then perturb_field z init_boxes up cp regenerate write direc fname match_seed w
              = (Ok f, w1)
         else perturbed_field = Some f /\ w1 = w)
        /\ OutputStruct.filled f = true
        /\ let box := IonizedBox_new (ionize_class do_spin_temp)
                        (OutputStruct.user_params f) (OutputStruct.cosmo_params f)
                        z astro flags in
           ionize_box astro flags redshift perturbed_field init_boxes cp up
             regenerate write direc fname match_seed do_spin_temp w
           = stage IsIonizedBox regenerate box (ionize_call do_spin_temp z f box)
               write direc fname match_seed w1
  end.
Proof.
  unfold ionize_box.
  destruct perturbed_field as [g|]; simpl effective_redshift.
  - simpl needs_upstream. unfold bind at 1. unfold ret at 1.
    destruct (OutputStruct.filled g) eqn:Hg; simpl negb; cbv iota.
    + exists g, w. split; [split; reflexivity|]. split; [exact Hg|].
      unfold bind at 1. unfold ret at 1.
      destruct do_spin_temp; apply guarded_read_then_compute.
    + destruct (perturb_field_returns (PerturbedField_redshift g) init_boxes up cp
                  regenerate write direc fname match_seed w)
        as (f & w1 & Hpf & Hfilled & _).
      exists f, w1. split; [exact Hpf|]. split; [exact Hfilled|].
      rewrite (bind_Ok _ _ _ _ _ Hpf).
      destruct do_spin_temp; apply guarded_read_then_compute.
  - destruct redshift as [z|]; [|reflexivity].
    simpl needs_upstream. unfold bind at 1. unfold ret at 1.
    destruct (perturb_field_returns z init_boxes up cp
                regenerate write direc fname match_seed w)
      as (f & w1 & Hpf & Hfilled & _).
    exists f, w1. split; [exact Hpf|]. split; [exact Hfilled|].
    rewrite (bind_Ok _ _ _ _ _ Hpf).
    destruct do_spin_temp; apply guarded_read_then_compute.
Qed.

(** Read-through on a hit: the cached object comes back, the disk is as it
    was, and the one new event is the read. *)
Lemma reads_through_hit {K : Type} (as_box : OutputStruct Payload K -> AnyBox Payload)
    (box : OutputStruct Payload K) (call : EngineCall Payload) (write : bool)
    (direc fname : option string) (match_seed : bool) (w : World Payload Disk)
    (p : Payload) :
  find_existing (disk w) (as_box box) direc fname match_seed = Some p ->
  reads_through as_box box call write direc fname match_seed w
  = (Ok (loaded box p),
     {| disk := disk w;
        trace := trace w ++ [Read (as_box box) direc fname match_seed] |}).
Proof. intros Hhit. unfold reads_through. rewrite Hhit. reflexivity. Qed.

(** Read-through on a miss: the engine call follows the read, the object is
    filled, and it is written exactly when [write] is set. *)
Lemma reads_through_miss {K : Type} (as_box : OutputStruct Payload K -> AnyBox Payload)
    (box : OutputStruct Payload K) (call : EngineCall Payload) (write : bool)
    (direc fname : option string) (match_seed : bool) (w : World Payload Disk) :
  find_existing (disk w) (as_box box) direc fname match_seed = None ->
  let box' := populated box call in
  OutputStruct.filled box' = true
  /\ OutputStruct.arrays box' = computed call
  /\ reads_through as_box box call write direc fname match_seed w
     = (Ok box',
        {| disk := if write then written (disk w) (as_box box') direc fname else disk w;
           trace := trace w
                    ++ [Read (as_box box) direc fname match_seed; Engine call]
                    ++ (if write then [Write (as_box box') direc fname] else []) |}).
Proof.
  intros Hmiss box'. split; [reflexivity|]. split; [reflexivity|].
  unfold reads_through, computes_and_stores, stored, logged. rewrite Hmiss.
  destruct write; simpl; rewrite <- ?app_assoc; reflexivity.
Qed.




End WrapperFacts.





(** The same call with the initial conditions passed in, filled: the hit is
    all that happens. *)
Example perturb_field_hit_with_filled_init_boxes :
  let up := UserParams_new None None (Some 2) in
  let cp := @CosmoParams_new reference_numerics (Some 1) None None None None None in
  let ic := set_filled (@InitialConditions_new _ _ slot_backend up cp) true in
  let fields := @PerturbedField_new _ _ slot_backend up cp 7%float in
  @perturb_field _ _ slot_backend reference_numerics 7%float (Some ic) None None
    false true None None false {| disk := [PerturbedField]; trace := [] |}
  = (Ok (loaded fields FromCache),
     {| disk := [PerturbedField];
        trace := [Read (IsPerturbedField fields) None None false] |}).
Proof. reflexivity. Qed.

(** From an empty cache, [ionize_box(redshift=8.0)] runs the three engine
    routines in pipeline order and writes each result. *)
Example ionize_box_from_empty_cache :
  let astro := AstroParams_new false None None None None None None None None None None
                 None None None None None None None None in
  let flags := mkFlagOptions false false false false false in
  let run := @ionize_box _ _ slot_backend reference_numerics astro flags
               (Some 8%float) None None None (Some (UserParams_new None None (Some 2)))
               false true None None false false {| disk := []; trace := [] |} in
  map class_of_event (trace (snd run))
  = [("read", InitialConditions); ("engine", InitialConditions);
     ("write", InitialConditions);
     ("read", PerturbedField); ("engine", PerturbedField); ("write", PerturbedField);
     ("read", IonizedBox); ("engine", IonizedBox); ("write", IonizedBox)]
  /\ disk (snd run) = [IonizedBox; PerturbedField; InitialConditions].
Proof. split; reflexivity. Qed.

(* ====================================================================== *)
(** ** Facts about the cache identity                                      *)
(* ====================================================================== *)

Section CacheIdentityFacts.
Context (repr : Value -> string) (digest : string -> string) {Payload : Type}.

Lemma same_fields_delete_seed (match_seed : bool) (p q : ParamSet) :
  same_fields match_seed p q ->
  delete "RANDOM_SEED" (pystruct p) = delete "RANDOM_SEED" (pystruct q).
Proof.
  intros Hsame. apply map_eq. intros key.
  destruct (decide (key = "RANDOM_SEED")) as [->|Hne].
  - rewrite !lookup_delete_eq. reflexivity.
  - rewrite !lookup_delete_ne by congruence. apply Hsame. right. exact Hne.
Qed.

Lemma same_fields_hashname (match_seed : bool) (p q : ParamSet) :
  class_name p = class_name q -> same_fields match_seed p q ->
  hashname repr digest p = hashname repr digest q.
Proof.
  intros Hclass Hsame. unfold hashname.
  rewrite Hclass, (same_fields_delete_seed match_seed p q Hsame). reflexivity.
Qed.

(** C3.  Two parameter sets of one class whose field values are the same,
    the random seed counted only under [match_seed], get the same cache
    name; and a box written for one is what a lookup for the other
    finds. *)
Theorem same_fields_same_cache_entry (match_seed : bool) (p q : ParamSet) :
  class_name p = class_name q ->
  same_fields match_seed p q ->
  cache_name repr digest match_seed p = cache_name repr digest match_seed q
  /\ forall (c : Cache) (box : Payload),
       cache_find repr digest (cache_write repr digest c p box) match_seed q = Some box.
Proof.
  intros Hclass Hsame.
  pose proof (same_fields_hashname match_seed p q Hclass Hsame) as Hname.
  assert (Hseed : match_seed = true -> seed_of repr p = seed_of repr q).
  { intros ->. unfold seed_of. rewrite (Hsame "RANDOM_SEED") by (left; reflexivity).
    reflexivity. }
  split.
  - unfold cache_name. destruct match_seed; [|exact Hname].
    rewrite Hname, Hseed by reflexivity. reflexivity.
  - intros c box. unfold cache_find, cache_write. simpl.
    rewrite Hname, String.eqb_refl. simpl.
    destruct match_seed; simpl; [|reflexivity].
    rewrite Hseed by reflexivity. rewrite String.eqb_refl. reflexivity.
Qed.

End CacheIdentityFacts.

(** Two [CosmoParams] that differ in the seed only. *)
Lemma CosmoParams_same_fields_but_seed (self : CosmoParams) (seed : option Z) :
  same_fields false (CosmoParams_pystruct self)
    (CosmoParams_pystruct (set_RANDOM_SEED self seed)).
Proof.
  intros key [Hms | Hne]; [discriminate Hms|].
  unfold CosmoParams_pystruct. simpl.
  rewrite !(lookup_insert_ne _ "RANDOM_SEED") by congruence. reflexivity.
Qed.

Lemma same_fields_same_cache_entry_witness :
  let p := CosmoParams_pystruct
             (@CosmoParams_new reference_numerics (Some 1) None None None None None) in
  let q := CosmoParams_pystruct
             (@CosmoParams_new reference_numerics (Some 2) None None None None None) in
  cache_name example_repr id false p = cache_name example_repr id false q
  /\ forall (c : Cache) (box : nat),
       cache_find example_repr id (cache_write example_repr id c p box) false q = Some box.
Proof.
  apply (same_fields_same_cache_entry example_repr id false
           (CosmoParams_pystruct
              (@CosmoParams_new reference_numerics (Some 1) None None None None None))
           (CosmoParams_pystruct
              (@CosmoParams_new reference_numerics (Some 2) None None None None None))).
  - reflexivity.
  - apply (CosmoParams_same_fields_but_seed
             (@CosmoParams_new reference_numerics (Some 1) None None None None None)
             (Some 2)).
Defined.

(* ====================================================================== *)
(** ** Further facts about the parameter structures                        *)
(* ====================================================================== *)

Lemma cube_negative (x : Z) : x ^ 3 < 0 <-> x < 0.
Proof.
  replace (x ^ 3) with (x * x * x) by ring. split; intros Hx; nia.
Qed.

Lemma np_zeros_Raise (n : Z) (e : exn) :
  np_zeros n = Raise e ->
  e = ValueError /\ (n < 0 \/ npy_intp_max < n * float32_itemsize).
Proof.
  unfold np_zeros. destruct (n <? 0) eqn:Hneg; intros Hr.
  - apply Z.ltb_lt in Hneg. injection Hr as <-. split; [reflexivity | left; exact Hneg].
  - destruct (npy_intp_max <? n * float32_itemsize) eqn:Hbig; [|discriminate Hr].
    apply Z.ltb_lt in Hbig. injection Hr as <-.
    split; [reflexivity | right; exact Hbig].
Qed.

Lemma np_zeros_negative (n : Z) : n < 0 -> np_zeros n = Raise ValueError.
Proof.
  intros Hn. unfold np_zeros. destruct (n <? 0) eqn:Hneg; [reflexivity|].
  apply Z.ltb_ge in Hneg. lia.
Qed.

Lemma np_zeros_too_big (n : Z) :
  npy_intp_max < n * float32_itemsize -> np_zeros n = Raise ValueError.
Proof.
  intros Hn. unfold np_zeros. destruct (n <? 0); [reflexivity|].
  destruct (npy_intp_max <? n * float32_itemsize) eqn:Hbig; [reflexivity|].
  apply Z.ltb_ge in Hbig. lia.
Qed.

Lemma np_zeros_Ok_bound (n : Z) (a : ndarray) :
  np_zeros n = Ok a -> n * float32_itemsize <= npy_intp_max.
Proof.
  unfold np_zeros. destruct (n <? 0); intros Ha; [discriminate Ha|].
  destruct (npy_intp_max <? n * float32_itemsize) eqn:Hbig; [discriminate Ha|].
  apply Z.ltb_ge in Hbig. exact Hbig.
Qed.

(** X1.  An explicit non-zero [DIM] is what the property returns; an
    explicit [DIM] of zero counts as unset and gives [4 * HII_DIM]; so the
    property is zero only when [HII_DIM] is zero, and the high resolution
    grid has no cell only when the low resolution grid has none. *)
Theorem DIM_explicit_or_four_times_HII_DIM (up : UserParams) :
  (forall d : Z, _DIM up = Some d -> d <> 0 -> DIM up = d)
  /\ (_DIM up = Some 0 -> DIM up = 4 * HII_DIM up)
  /\ (DIM up = 0 -> HII_DIM up = 0)
  /\ (tot_fft_num_pixels up = 0 -> HII_tot_num_pixels up = 0).
Proof.
  assert (Hzero : DIM up = 0 -> HII_DIM up = 0).
  { unfold DIM, int_truthy. destruct (_DIM up) as [d|]; [|lia].
    destruct (d =? 0) eqn:Hd; simpl; [lia|]. apply Z.eqb_neq in Hd. lia. }
  repeat split.
  - intros d Hd Hne. unfold DIM, int_truthy. rewrite Hd.
    destruct (d =? 0) eqn:Hz; [apply Z.eqb_eq in Hz; lia | reflexivity].
  - intros Hd. unfold DIM. rewrite Hd. reflexivity.
  - exact Hzero.
  - unfold tot_fft_num_pixels, HII_tot_num_pixels. intros Hpix.
    assert (Hd : DIM up = 0) by (apply (Z.pow_eq_0_iff (DIM up) 3) in Hpix; lia).
    rewrite (Hzero Hd). reflexivity.
Qed.

(** X2.  [R_BUBBLE_MAX] never reads as zero: a stored non-zero value is
    returned as it is, and [None] or zero gives 50 under [INHOMO_RECO] and
    15 without it. *)
Theorem R_BUBBLE_MAX_is_never_zero (self : AstroParams) :
  float_truthy (R_BUBBLE_MAX self) = true
  /\ (forall r : float,
        _R_BUBBLE_MAX self = Some r -> float_truthy r = true -> R_BUBBLE_MAX self = r)
  /\ (opt_truthy float_truthy (_R_BUBBLE_MAX self) = false ->
        R_BUBBLE_MAX self = if INHOMO_RECO self then 50%float else 15%float).
Proof.
  unfold R_BUBBLE_MAX.
  destruct (_R_BUBBLE_MAX self) as [r|]; simpl.
  - destruct (float_truthy r) eqn:Hr; simpl.
    + repeat split; [exact Hr | intros r' Hr' _; congruence | discriminate].
    + repeat split.
      * destruct (INHOMO_RECO self); reflexivity.
      * intros r' Hr' Ht. injection Hr' as <-. congruence.
  - repeat split; [destruct (INHOMO_RECO self); reflexivity | discriminate].
Qed.

(** One pass of the loop of [RANDOM_SEED] that draws a non-zero value. *)
Lemma RANDOM_SEED_draw `{RandomState} (fuel : nat) (self : CosmoParams)
    (g g' : Rng) (n : Z) :
  opt_truthy int_truthy (_RANDOM_SEED self) = false ->
  randint 1 (10 ^ 12) g = (n, g') -> n <> 0 ->
  RANDOM_SEED (S (S fuel)) self g = Some (n, set_RANDOM_SEED self (Some n), g').
Proof.
  intros Hunset Hdraw Hn.
  change (RANDOM_SEED (S (S fuel)) self g)
    with (if negb (opt_truthy int_truthy (_RANDOM_SEED self))
          then let (m, g1) := randint 1 (10 ^ 12) g in
               RANDOM_SEED (S fuel) (set_RANDOM_SEED self (Some m)) g1
          else match _RANDOM_SEED self with
               | Some m => Some (m, self, g)
               | None => None
               end).
  rewrite Hunset, Hdraw. simpl negb. cbv iota.
  apply RANDOM_SEED_stored; [reflexivity | exact Hn].
Qed.

(** X3.  Whatever seed the instance was constructed with, a read of
    [RANDOM_SEED] returns a non-zero integer and leaves it stored: a
    non-zero seed is returned as it is, with no draw and no change; a seed
    of zero counts as unset and is replaced by one draw of
    [randint(1, 1e12)]. *)
Theorem RANDOM_SEED_read_is_never_zero `{RandomState}
    (Hrange : randint_in_range) (self : CosmoParams) (g : Rng) (fuel : nat) :
  (2 <= fuel)%nat ->
  exists (n : Z) (self' : CosmoParams) (g' : Rng),
    RANDOM_SEED fuel self g = Some (n, self', g')
    /\ n <> 0
    /\ _RANDOM_SEED self' = Some n
    /\ (forall m : Z, _RANDOM_SEED self = Some m -> m <> 0 ->
          n = m /\ self' = self /\ g' = g)
    /\ (_RANDOM_SEED self = Some 0 ->
          (n, g') = randint 1 (10 ^ 12) g /\ 1 <= n < 10 ^ 12).
Proof.
  intros Hfuel. destruct fuel as [|[|fuel]]; [lia | lia |].
  destruct (opt_truthy int_truthy (_RANDOM_SEED self)) eqn:Hset.
  - destruct (_RANDOM_SEED self) as [m|] eqn:Hm; [|discriminate Hset].
    simpl in Hset. unfold int_truthy in Hset.
    assert (Hne : m <> 0).
    { destruct (m =? 0) eqn:Hz; [discriminate Hset | apply Z.eqb_neq, Hz]. }
    exists m, self, g.
    split; [apply RANDOM_SEED_stored; assumption|].
    split; [exact Hne|]. split; [exact Hm|].
    split.
    + intros m' Hm' _. injection Hm' as <-. repeat split.
    + intros Hzero. congruence.
  - pose proof (Hrange 1 (10 ^ 12) g ltac:(lia)) as Hn.
    destruct (randint 1 (10 ^ 12) g) as [n g'] eqn:Hdraw. simpl in Hn.
    exists n, (set_RANDOM_SEED self (Some n)), g'.
    split; [apply RANDOM_SEED_draw; [exact Hset | exact Hdraw | lia]|].
    split; [lia|]. split; [reflexivity|].
    split.
    + intros m Hm Hne. rewrite Hm in Hset. simpl in Hset. unfold int_truthy in Hset.
      destruct (m =? 0) eqn:Hz; [apply Z.eqb_eq in Hz; lia | discriminate Hset].
    + intros _. split; [reflexivity | lia].
Qed.

Lemma RANDOM_SEED_read_is_never_zero_witness :
  exists (n : Z) (self' : CosmoParams) (g' : Z),
    @RANDOM_SEED lcg_random 2
      (@CosmoParams_new reference_numerics (Some 0) None None None None None) 7
    = Some (n, self', g')
    /\ n <> 0
    /\ _RANDOM_SEED self' = Some n
    /\ (forall m : Z,
          _RANDOM_SEED (@CosmoParams_new reference_numerics (Some 0) None None None None None)
          = Some m -> m <> 0 ->
          n = m
          /\ self' = @CosmoParams_new reference_numerics (Some 0) None None None None None
          /\ g' = 7)
    /\ (_RANDOM_SEED (@CosmoParams_new reference_numerics (Some 0) None None None None None)
        = Some 0 ->
          (n, g') = @randint lcg_random 1 (10 ^ 12) 7 /\ 1 <= n < 10 ^ 12).
Proof.
  apply (@RANDOM_SEED_read_is_never_zero lcg_random lcg_random_in_range
           (@CosmoParams_new reference_numerics (Some 0) None None None None None) 7 2%nat).
  lia.
Defined.

(** X4.  [InitialConditions._init_boxes] stops at its first [np.zeros]
    with numpy's [ValueError] when [HII_DIM] is negative, and when the
    [HII_DIM ^ 3] cells of a low resolution box are beyond the size numpy
    gives an array (as for [HII_DIM=3000000]); and it returns only for
    dimensions that are not negative and whose cubes are within that
    size: a negative [DIM], or one too large, never yields the boxes. *)
Theorem InitialConditions_init_boxes_refusals (up : UserParams) :
  (HII_DIM up < 0 -> InitialConditions_init_boxes up = Raise ValueError)
  /\ (npy_intp_max < HII_DIM up ^ 3 * float32_itemsize ->
        InitialConditions_init_boxes up = Raise ValueError)
  /\ (forall b : InitBoxes,
        InitialConditions_init_boxes up = Ok b ->
        0 <= HII_DIM up /\ 0 <= DIM up
        /\ HII_DIM up ^ 3 * float32_itemsize <= npy_intp_max
        /\ DIM up ^ 3 * float32_itemsize <= npy_intp_max)
  /\ InitialConditions_init_boxes (UserParams_new None None (Some 3000000))
     = Raise ValueError.
Proof.
  assert (Hnonneg : forall x : Z, 0 <= x ^ 3 -> 0 <= x).
  { intros x Hx. destruct (Z_lt_le_dec x 0) as [Hneg|Hok]; [|exact Hok].
    apply cube_negative in Hneg. lia. }
  split; [|split; [|split]].
  - intros Hneg. unfold InitialConditions_init_boxes, HII_tot_num_pixels.
    rewrite (np_zeros_negative (HII_DIM up ^ 3)) by (apply cube_negative, Hneg).
    reflexivity.
  - intros Hbig. unfold InitialConditions_init_boxes, HII_tot_num_pixels.
    rewrite (np_zeros_too_big (HII_DIM up ^ 3) Hbig). reflexivity.
  - intros b Hb. unfold InitialConditions_init_boxes in Hb.
    apply rbind_Ok in Hb as (low1 & H1 & Hb).
    apply rbind_Ok in Hb as (low2 & _ & Hb).
    apply rbind_Ok in Hb as (low3 & _ & Hb).
    apply rbind_Ok in Hb as (hi & H4 & _).
    pose proof (np_zeros_Ok_bound _ _ H1) as B1.
    pose proof (np_zeros_Ok_bound _ _ H4) as B4.
    apply np_zeros_Ok in H1 as [N1 _]. apply np_zeros_Ok in H4 as [N4 _].
    unfold HII_tot_num_pixels in *. unfold tot_fft_num_pixels in *.
    repeat split; auto.
  - reflexivity.
Qed.

(** The boxes of a class with low resolution arrays only. *)
Lemma lowres_boxes_Ok (up : UserParams) (a : ndarray) :
  np_zeros (HII_tot_num_pixels up) = Ok a ->
  0 <= HII_DIM up /\ Z.of_nat (length a) = HII_DIM up ^ 3.
Proof.
  intros Ha. apply np_zeros_Ok in Ha as [Hnn Hlen].
  unfold HII_tot_num_pixels in *. split; [|exact Hlen].
  destruct (Z_lt_le_dec (HII_DIM up) 0) as [Hneg|Hok]; [|exact Hok].
  apply cube_negative in Hneg. lia.
Qed.

Lemma attribute_of_same_array (a arr : ndarray) (names : list string) (name : string) :
  attribute {| attributes := map (fun n => (n, a)) names; returned_names := names |} name
  = Some arr ->
  arr = a.
Proof.
  unfold attribute. simpl.
  induction names as [|n names IH]; simpl; [discriminate|].
  destruct (String.eqb n name); simpl; [intros [= <-]; reflexivity | exact IH].
Qed.

Lemma same_array_names_match (a : ndarray) (names : list string) :
  names_match_attributes
    {| attributes := map (fun n => (n, a)) names; returned_names := names |}.
Proof.
  intros name. simpl. rewrite map_map. simpl. rewrite map_id. reflexivity.
Qed.

(** X5.  [PerturbedField._init_boxes], [IonizedBox._init_boxes] and
    [TsBox._init_boxes] raise numpy's [ValueError] when [HII_DIM] is
    negative; and whenever they return, [HII_DIM] is not negative, the
    names they return are exactly the attributes they have set, and every
    array they set has [HII_DIM ^ 3] cells.  For [HII_DIM=2] the three of
    them return. *)
Theorem lowres_init_boxes_names_and_lengths (up : UserParams) :
  let well_formed (r : Result InitBoxes) (names : list string) :=
    (HII_DIM up < 0 -> r = Raise ValueError)
    /\ forall b : InitBoxes, r = Ok b ->
         0 <= HII_DIM up
         /\ returned_names b = names
         /\ names_match_attributes b
         /\ forall (name : string) (a : ndarray),
              attribute b name = Some a -> Z.of_nat (length a) = HII_DIM up ^ 3 in
  well_formed (PerturbedField_init_boxes up) ["density"; "velocity"]
  /\ well_formed (IonizedBox_init_boxes up) ["ionized_box"]
  /\ well_formed (TsBox_init_boxes up) ["Ts_box"]
  /\ (exists b1 b2 b3 : InitBoxes,
        PerturbedField_init_boxes (UserParams_new None None (Some 2)) = Ok b1
        /\ IonizedBox_init_boxes (UserParams_new None None (Some 2)) = Ok b2
        /\ TsBox_init_boxes (UserParams_new None None (Some 2)) = Ok b3).
Proof.
  assert (Hok : forall (a : ndarray) (names : list string),
             0 <= HII_DIM up -> Z.of_nat (length a) = HII_DIM up ^ 3 ->
             let r := Ok {| attributes := map (fun n => (n, a)) names;
                            returned_names := names |} in
             (HII_DIM up < 0 -> r = Raise ValueError)
             /\ forall b : InitBoxes, r = Ok b ->
                  0 <= HII_DIM up
                  /\ returned_names b = names
                  /\ names_match_attributes b
                  /\ forall (name : string) (arr : ndarray),
                       attribute b name = Some arr ->
                       Z.of_nat (length arr) = HII_DIM up ^ 3).
  { intros a names Hnn Hlen r. split; [lia|].
    intros b Hb. injection Hb as <-.
    split; [exact Hnn|]. split; [reflexivity|].
    split; [apply same_array_names_match|].
    intros name arr Harr. apply attribute_of_same_array in Harr as ->. exact Hlen. }
  assert (Hfail : forall names : list string,
             let r : Result InitBoxes := Raise ValueError in
             (HII_DIM up < 0 -> r = Raise ValueError)
             /\ forall b : InitBoxes, r = Ok b ->
                  0 <= HII_DIM up
                  /\ returned_names b = names
                  /\ names_match_attributes b
                  /\ forall (name : string) (arr : ndarray),
                       attribute b name = Some arr ->
                       Z.of_nat (length arr) = HII_DIM up ^ 3).
  { intros names r. split; [reflexivity|]. intros b Hb. discriminate Hb. }
  split; [|split; [|split]];
    [| | | eexists _, _, _; repeat split; reflexivity ];
    unfold PerturbedField_init_boxes, IonizedBox_init_boxes, TsBox_init_boxes;
    (destruct (np_zeros (HII_tot_num_pixels up)) as [a|e] eqn:Ha; simpl;
     [ destruct (lowres_boxes_Ok up a Ha) as [Hnn Hlen]
     | apply np_zeros_Raise in Ha as [-> _] ]).
  - exact (Hok a ["density"; "velocity"] Hnn Hlen).
  - apply Hfail.
  - exact (Hok a ["ionized_box"] Hnn Hlen).
  - apply Hfail.
  - exact (Hok a ["Ts_box"] Hnn Hlen).
  - apply Hfail.
Qed.

(** The four checks of [_logic] when both names resolve, as one table. *)
Lemma FlagOptions_logic_resolved `{BaseClass} (self : FlagOptions) (g t : bool) :
  base_attr "GenerateNewICs" = Some g ->
  base_attr "USE_TS_FLUCT" = Some t ->
  FlagOptions_logic self
  = if g && (USE_FCOLL_IONISATION_TABLE self || SHORTEN_FCOLL self)
    then Raise ValueError
    else if t && INCLUDE_ZETA_PL self then Raise NotImplementedError
    else if USE_FCOLL_IONISATION_TABLE self && FLAG_INHOMO_RECO self then Raise ValueError
    else if FLAG_INHOMO_RECO self && t then Raise ValueError
    else Ok tt.
Proof.
  intros Hg Ht. unfold FlagOptions_logic, FlagOptions_getattr. simpl.
  rewrite Hg, Ht. destruct self as [z s u f i].
  destruct g, t, z, u, f, i; reflexivity.
Qed.

(** What [_logic] does when a name it reads does not resolve. *)
Lemma FlagOptions_logic_unresolved `{BaseClass} (self : FlagOptions) :
  (base_attr "GenerateNewICs" = None ->
   FlagOptions_logic self = Raise (AttributeError "GenerateNewICs"))
  /\ (forall g : bool,
        base_attr "GenerateNewICs" = Some g -> base_attr "USE_TS_FLUCT" = None ->
        FlagOptions_logic self
        = if g && (USE_FCOLL_IONISATION_TABLE self || SHORTEN_FCOLL self)
          then Raise ValueError
          else Raise (AttributeError "USE_TS_FLUCT")).
Proof.
  split.
  - intros Hg. unfold FlagOptions_logic, FlagOptions_getattr. simpl.
    rewrite Hg. reflexivity.
  - intros g Hg Ht. unfold FlagOptions_logic, FlagOptions_getattr. simpl.
    rewrite Hg, Ht. destruct self as [z s u f i].
    destruct g, u, f; reflexivity.
Qed.

(** X6.  What a [FlagOptions] that did construct guarantees: both names
    that [_logic] reads resolved; the instance holds the flags given and
    [False] for the others; the interpolation table and inhomogeneous
    recombinations are not both set; under [GenerateNewICs] no
    interpolation table is set; and under [USE_TS_FLUCT] neither
    [INCLUDE_ZETA_PL] nor [INHOMO_RECO] is set. *)
Theorem FlagOptions_new_Ok_guarantees `{BaseClass}
    (zeta subcell table shorten inhomo : option bool) (self : FlagOptions) :
  FlagOptions_new zeta subcell table shorten inhomo = Ok self ->
  self = {| INCLUDE_ZETA_PL := default false zeta;
            SUBCELL_RSD := default false subcell;
            USE_FCOLL_IONISATION_TABLE := default false table;
            SHORTEN_FCOLL := default false shorten;
            FLAG_INHOMO_RECO := default false inhomo |}
  /\ (exists g t : bool,
        base_attr "GenerateNewICs" = Some g
        /\ base_attr "USE_TS_FLUCT" = Some t
        /\ (g = true ->
              USE_FCOLL_IONISATION_TABLE self = false /\ SHORTEN_FCOLL self = false)
        /\ (t = true ->
              INCLUDE_ZETA_PL self = false /\ FLAG_INHOMO_RECO self = false))
  /\ (USE_FCOLL_IONISATION_TABLE self && FLAG_INHOMO_RECO self = false).
Proof.
  unfold FlagOptions_new. intros Hnew.
  apply rbind_Ok in Hnew as ([] & Hlogic & Hself). injection Hself as <-.
  split; [reflexivity|].
  destruct (base_attr "GenerateNewICs") as [g|] eqn:Hg.
  2:{ rewrite (proj1 (FlagOptions_logic_unresolved _) Hg) in Hlogic. discriminate Hlogic. }
  destruct (base_attr "USE_TS_FLUCT") as [t|] eqn:Ht.
  2:{ rewrite (proj2 (FlagOptions_logic_unresolved _) g Hg Ht) in Hlogic.
      destruct (g && _); discriminate Hlogic. }
  rewrite (FlagOptions_logic_resolved _ g t Hg Ht) in Hlogic. simpl in Hlogic.
  split; [exists g, t; split; [reflexivity|]; split; [reflexivity|]|];
    destruct g, t, (default false zeta), (default false table), (default false shorten),
      (default false inhomo); simpl in Hlogic; try discriminate Hlogic;
    simpl; repeat split; try reflexivity; discriminate.
Qed.

(** A base class that defines both names as [False]. *)
Lemma FlagOptions_new_Ok_guarantees_witness :
  let self := mkFlagOptions false true false false true in
  self = {| INCLUDE_ZETA_PL := default false None;
            SUBCELL_RSD := default false (Some true);
            USE_FCOLL_IONISATION_TABLE := default false None;
            SHORTEN_FCOLL := default false None;
            FLAG_INHOMO_RECO := default false (Some true) |}
  /\ (exists g t : bool,
        Some false = Some g
        /\ Some false = Some t
        /\ (g = true ->
              USE_FCOLL_IONISATION_TABLE self = false /\ SHORTEN_FCOLL self = false)
        /\ (t = true ->
              INCLUDE_ZETA_PL self = false /\ FLAG_INHOMO_RECO self = false))
  /\ (USE_FCOLL_IONISATION_TABLE self && FLAG_INHOMO_RECO self = false).
Proof.
  apply (@FlagOptions_new_Ok_guarantees {| base_attr := fun _ => Some false |}
           None (Some true) None None (Some true)
           (mkFlagOptions false true false false true)).
  reflexivity.
Defined.

(** X7.  With the names resolved, no new initial conditions and no other
    flag set, [INHOMO_RECO=True] is refused exactly when [USE_TS_FLUCT] is
    on: inhomogeneous recombinations pass the fourth check of [_logic]
    only without the spin temperature. *)
Theorem inhomogeneous_recombinations_refused_with_spin_temperature `{BaseClass}
    (self : FlagOptions) (t : bool) :
  base_attr "GenerateNewICs" = Some false ->
  base_attr "USE_TS_FLUCT" = Some t ->
  FLAG_INHOMO_RECO self = true ->
  USE_FCOLL_IONISATION_TABLE self = false ->
  INCLUDE_ZETA_PL self = false ->
  FlagOptions_logic self = if t then Raise ValueError else Ok tt.
Proof.
  intros Hg Ht Hi Hu Hz.
  rewrite (FlagOptions_logic_resolved self false t Hg Ht), Hi, Hu, Hz.
  destruct t; reflexivity.
Qed.

Lemma inhomogeneous_recombinations_refused_with_spin_temperature_witness :
  @FlagOptions_logic {| base_attr := fun name => Some (String.eqb name "USE_TS_FLUCT") |}
    (mkFlagOptions false false false false true)
  = Raise ValueError.
Proof.
  apply (@inhomogeneous_recombinations_refused_with_spin_temperature
           {| base_attr := fun name => Some (String.eqb name "USE_TS_FLUCT") |}
           (mkFlagOptions false false false false true) true);
    reflexivity.
Defined.

(* ====================================================================== *)
(** ** Further facts about the wrapping functions                          *)
(* ====================================================================== *)

Section WrapperFurtherFacts.
Context {Payload Disk : Type} `{Backend Payload Disk} `{Numerics}.

(** What one stage leaves: the object, the events and the directory. *)
Lemma stage_outcome {K : Type}
    (as_box : OutputStruct Payload K -> AnyBox Payload) (regenerate : bool)
    (box : OutputStruct Payload K) (call : EngineCall Payload) (write : bool)
    (direc fname : option string) (match_seed : bool) (w : World Payload Disk) :
  let found := find_existing (disk w) (as_box box) direc fname match_seed in
  let computes := regenerate || negb (is_hit found) in
  stage as_box regenerate box call write direc fname match_seed w
  = (Ok (if computes then populated box call
         else loaded box (default (OutputStruct.arrays box) found)),
     {| disk := if computes && write
                then written (disk w) (as_box (populated box call)) direc fname
                else disk w;
        trace := trace w
                 ++ stage_events as_box regenerate box call write direc fname
                      match_seed (disk w) |}).
Proof.
  unfold stage, reads_through, computes_and_stores, stage_events, stored, logged.
  destruct regenerate; simpl.
  - destruct write; simpl; rewrite <- ?app_assoc; reflexivity.
  - destruct (find_existing (disk w) (as_box box) direc fname match_seed); simpl.
    + reflexivity.
    + destruct write; simpl; rewrite <- ?app_assoc; reflexivity.
Qed.

(** The events of [perturb_field]: those of [initial_conditions] when it
    has to run (its lookup made with [match_seed=False]), then those of the
    stage of the perturbed field. *)
Lemma perturb_field_events (z : float) (init_boxes : option (OutputStruct Payload unit))
    (up : option UserParams) (cp : option CosmoParams)
    (regenerate write : bool) (direc fname : option string) (match_seed : bool)
    (w : World Payload Disk) :
  let up' := effective_user_params init_boxes up in
  let cp' := effective_cosmo_params init_boxes cp in
  let ic := InitialConditions_new up' cp' in
  let fields := PerturbedField_new up' cp' z in
  exists (ib : OutputStruct Payload unit) (d1 : Disk),
    trace (snd (perturb_field z init_boxes up cp regenerate write direc fname
                  match_seed w))
    = (trace w
       ++ (if needs_upstream init_boxes
           then stage_events IsInitialConditions regenerate ic
                  (ComputeInitialConditions up' cp' ic) write direc fname false (disk w)
           else [])
       ++ stage_events IsPerturbedField regenerate fields
            (ComputePerturbField z ib fields) write direc fname match_seed d1)%list.
Proof.
  intros up' cp' ic fields.
  destruct (perturb_field_stage z init_boxes up cp regenerate write direc fname
              match_seed w) as (ib & w1 & Hup & _ & ->).
  exists ib, (disk w1). rewrite stage_outcome. simpl.
  destruct (needs_upstream init_boxes).
  - rewrite initial_conditions_stage, stage_outcome in Hup.
    injection Hup as _ <-. simpl. rewrite <- app_assoc. reflexivity.
  - destruct Hup as [_ ->]. reflexivity.
Qed.

(** The events of [ionize_box]: none when it refuses to run; otherwise
    those of [perturb_field] when it has to run, then those of its own
    stage. *)
Lemma ionize_box_events (astro : AstroParams) (flags : FlagOptions)
    (redshift : option float) (perturbed_field : option (OutputStruct Payload float))
    (init_boxes : option (OutputStruct Payload unit))
    (cp : option CosmoParams) (up : option UserParams)
    (regenerate write : bool) (direc fname : option string) (match_seed : bool)
    (do_spin_temp : bool) (w : World Payload Disk) :
  let run := ionize_box astro flags redshift perturbed_field init_boxes cp up
               regenerate write direc fname match_seed do_spin_temp w in
  match effective_redshift perturbed_field redshift with
  | None => trace (snd run) = trace w
  | Some z =>
      exists (f : OutputStruct Payload float) (d2 : Disk)
             (upstream : list (Event Payload)),
        let box := IonizedBox_new (ionize_class do_spin_temp)
                     (OutputStruct.user_params f) (OutputStruct.cosmo_params f)
                     z astro flags in
        trace (snd run)
        = (trace w ++ upstream
           ++ stage_events IsIonizedBox regenerate box (ionize_call do_spin_temp z f box)
                write direc fname match_seed d2)%list
        /\ (if needs_upstream perturbed_field
            then trace (snd (perturb_field z init_boxes up cp regenerate write direc
                               fname match_seed w))
                 = (trace w ++ upstream)%list
            else upstream = [])
  end.
Proof.
  intros run. unfold run.
  pose proof (ionize_box_stage astro flags redshift perturbed_field init_boxes cp up
                regenerate write direc fname match_seed do_spin_temp w) as Hstage.
  destruct (effective_redshift perturbed_field redshift) as [z|];
    [|rewrite Hstage; reflexivity].
  destruct Hstage as (f & w1 & Hup & _ & ->).
  rewrite stage_outcome. simpl.
  destruct (needs_upstream perturbed_field).
  - destruct (perturb_field_events z init_boxes up cp regenerate write direc fname
                match_seed w) as (ib & d1 & Htrace).
    rewrite Hup in Htrace. simpl in Htrace.
    eexists f, (disk w1), _. split; [|rewrite Hup; simpl; exact Htrace].
    rewrite Htrace, <- !app_assoc. reflexivity.
  - destruct Hup as [_ ->]. exists f, (disk w), []. split; reflexivity.
Qed.


(** The events of a stage are among read, engine call and write, in that
    order, each at most once. *)
Lemma stage_events_in_order {K : Type}
    (as_box : OutputStruct Payload K -> AnyBox Payload) (regenerate : bool)
    (box : OutputStruct Payload K) (call : EngineCall Payload) (write : bool)
    (direc fname : option string) (match_seed : bool) (d : Disk) (c : BoxClass) :
  class_of (as_box box) = c ->
  class_of (as_box (populated box call)) = c ->
  class_of_event (Engine call) = ("engine", c) ->
  map class_of_event
    (stage_events as_box regenerate box call write direc fname match_seed d)
  `sublist_of` stage_order c.
Proof.
  intros Hbox Hpop Hcall. unfold stage_events, stage_order.
  assert (Hread : class_of_event (Read (as_box box) direc fname match_seed)
                  = ("read", c)) by (simpl; rewrite Hbox; reflexivity).
  assert (Hwrite : class_of_event (Write (as_box (populated box call)) direc fname)
                   = ("write", c)) by (simpl; rewrite Hpop; reflexivity).
  destruct regenerate, write,
    (find_existing d (as_box box) direc fname match_seed);
    cbn [orb negb is_hit app map]; rewrite ?Hread, ?Hwrite, ?Hcall;
    repeat first [apply sublist_nil | apply sublist_skip | apply sublist_cons].
Qed.

Lemma initial_conditions_unwritten (up : UserParams) (cp : CosmoParams)
    (regenerate : bool) (direc fname : option string) (match_seed : bool)
    (w : World Payload Disk) :
  disk (snd (initial_conditions up cp regenerate false direc fname match_seed w))
  = disk w.
Proof.
  rewrite initial_conditions_stage, stage_outcome. simpl.
  rewrite andb_false_r. reflexivity.
Qed.

Lemma perturb_field_unwritten (z : float) (init_boxes : option (OutputStruct Payload unit))
    (up : option UserParams) (cp : option CosmoParams) (regenerate : bool)
    (direc fname : option string) (match_seed : bool) (w : World Payload Disk) :
  disk (snd (perturb_field z init_boxes up cp regenerate false direc fname match_seed w))
  = disk w.
Proof.
  destruct (perturb_field_stage z init_boxes up cp regenerate false direc fname
              match_seed w) as (ib & w1 & Hup & _ & ->).
  rewrite stage_outcome. simpl. rewrite andb_false_r.
  destruct (needs_upstream init_boxes).
  - pose proof (initial_conditions_unwritten (effective_user_params init_boxes up)
                  (effective_cosmo_params init_boxes cp) regenerate direc fname false w)
      as Hdisk.
    rewrite Hup in Hdisk. exact Hdisk.
  - destruct Hup as [_ ->]. reflexivity.
Qed.

(** X8.  With [write=False] none of the three functions changes the cache
    directory, whatever it reads, computes or raises, its upstream calls
    included. *)
Theorem write_false_leaves_the_cache_alone :
  (forall (up : UserParams) (cp : CosmoParams) (regenerate : bool)
          (direc fname : option string) (match_seed : bool) (w : World Payload Disk),
      disk (snd (initial_conditions up cp regenerate false direc fname match_seed w))
      = disk w)
  /\ (forall (z : float) (init_boxes : option (OutputStruct Payload unit))
             (up : option UserParams) (cp : option CosmoParams) (regenerate : bool)
             (direc fname : option string) (match_seed : bool) (w : World Payload Disk),
        disk (snd (perturb_field z init_boxes up cp regenerate false direc fname
                     match_seed w))
        = disk w)
  /\ (forall (astro : AstroParams) (flags : FlagOptions) (redshift : option float)
             (perturbed_field : option (OutputStruct Payload float))
             (init_boxes : option (OutputStruct Payload unit))
             (cp : option CosmoParams) (up : option UserParams) (regenerate : bool)
             (direc fname : option string) (match_seed do_spin_temp : bool)
             (w : World Payload Disk),
        disk (snd (ionize_box astro flags redshift perturbed_field init_boxes cp up
                     regenerate false direc fname match_seed do_spin_temp w))
        = disk w).
Proof.
  split; [exact initial_conditions_unwritten|].
  split; [exact perturb_field_unwritten|].
  intros astro flags redshift perturbed_field init_boxes cp up regenerate direc fname
    match_seed do_spin_temp w.
  pose proof (ionize_box_stage astro flags redshift perturbed_field init_boxes cp up
                regenerate false direc fname match_seed do_spin_temp w) as Hstage.
  destruct (effective_redshift perturbed_field redshift) as [z|];
    [|rewrite Hstage; reflexivity].
  destruct Hstage as (f & w1 & Hup & _ & ->).
  rewrite stage_outcome. simpl. rewrite andb_false_r.
  destruct (needs_upstream perturbed_field).
  - pose proof (perturb_field_unwritten z init_boxes up cp regenerate direc fname
                  match_seed w) as Hdisk.
    rewrite Hup in Hdisk. exact Hdisk.
  - destruct Hup as [_ ->]. reflexivity.
Qed.



Lemma perturb_field_in_order (z : float)
    (init_boxes : option (OutputStruct Payload unit))
    (up : option UserParams) (cp : option CosmoParams) (regenerate write : bool)
    (direc fname : option string) (match_seed : bool) (w : World Payload Disk) :
  exists evs : list (Event Payload),
    trace (snd (perturb_field z init_boxes up cp regenerate write direc fname
                  match_seed w))
    = (trace w ++ evs)%list
    /\ map class_of_event evs
       `sublist_of` (stage_order InitialConditions ++ stage_order PerturbedField)%list.
Proof.
  destruct (perturb_field_events z init_boxes up cp regenerate write direc fname
              match_seed w) as (ib & d1 & ->).
  eexists. split; [reflexivity|].
  rewrite map_app. apply sublist_app.
  - destruct (needs_upstream init_boxes); [|apply sublist_nil_l].
    apply stage_events_in_order; reflexivity.
  - apply stage_events_in_order; reflexivity.
Qed.

(** X10.  Whatever the arguments and the state of the cache, the events of
    one call come in pipeline order, each at most once: for
    [perturb_field], some of read, engine call and write of the initial
    conditions, then some of those of the perturbed field; for
    [ionize_box], these and then some of read, engine call and write of
    the ionized box (or of the spin temperature box under
    [do_spin_temp]). *)
Theorem events_come_in_pipeline_order :
  (forall (z : float) (init_boxes : option (OutputStruct Payload unit))
          (up : option UserParams) (cp : option CosmoParams) (regenerate write : bool)
          (direc fname : option string) (match_seed : bool) (w : World Payload Disk),
      exists evs : list (Event Payload),
        trace (snd (perturb_field z init_boxes up cp regenerate write direc fname
                      match_seed w))
        = (trace w ++ evs)%list
        /\ map class_of_event evs
           `sublist_of` (stage_order InitialConditions ++ stage_order PerturbedField)%list)
  /\ (forall (astro : AstroParams) (flags : FlagOptions) (redshift : option float)
             (perturbed_field : option (OutputStruct Payload float))
             (init_boxes : option (OutputStruct Payload unit))
             (cp : option CosmoParams) (up : option UserParams) (regenerate write : bool)
             (direc fname : option string) (match_seed do_spin_temp : bool)
             (w : World Payload Disk),
        exists evs : list (Event Payload),
          trace (snd (ionize_box astro flags redshift perturbed_field init_boxes cp up
                        regenerate write direc fname match_seed do_spin_temp w))
          = (trace w ++ evs)%list
          /\ map class_of_event evs
             `sublist_of` pipeline_order (ionize_class do_spin_temp)).
Proof.
  split; [exact perturb_field_in_order|].
  intros astro flags redshift perturbed_field init_boxes cp up regenerate write direc
    fname match_seed do_spin_temp w.
  pose proof (ionize_box_events astro flags redshift perturbed_field init_boxes cp up
                regenerate write direc fname match_seed do_spin_temp w) as Hev.
  simpl in Hev.
  destruct (effective_redshift perturbed_field redshift) as [z|].
  2:{ exists []. rewrite app_nil_r. split; [exact Hev | apply sublist_nil_l]. }
  destruct Hev as (f & d2 & upstream & Htrace & Hup).
  eexists. split; [exact Htrace|].
  unfold pipeline_order. rewrite map_app, (app_assoc (stage_order InitialConditions)).
  apply sublist_app.
  - destruct (needs_upstream perturbed_field); [|rewrite Hup; apply sublist_nil_l].
    destruct (perturb_field_in_order z init_boxes up cp regenerate write direc fname
                match_seed w) as (evs & Hpf & Horder).
    rewrite Hpf in Hup. apply app_inv_head in Hup as <-. exact Horder.
  - apply stage_events_in_order; destruct do_spin_temp; reflexivity.
Qed.


(** X12.  Arguments that do not count.  With [init_boxes] given,
    [perturb_field] takes the parameters from it and ignores
    [user_params] and [cosmo_params]; with a filled [perturbed_field]
    given, [ionize_box] ignores [redshift], [init_boxes], [cosmo_params]
    and [user_params]; and an unfilled [perturbed_field] counts for its
    redshift only: the call is the one made without it at that redshift. *)
Theorem arguments_that_do_not_count :
  (forall (z : float) (ib : OutputStruct Payload unit)
          (up up' : option UserParams) (cp cp' : option CosmoParams)
          (regenerate write : bool) (direc fname : option string) (match_seed : bool)
          (w : World Payload Disk),
      perturb_field z (Some ib) up cp regenerate write direc fname match_seed w
      = perturb_field z (Some ib) up' cp' regenerate write direc fname match_seed w)
  /\ (forall (astro : AstroParams) (flags : FlagOptions) (redshift redshift' : option float)
             (f : OutputStruct Payload float)
             (init_boxes init_boxes' : option (OutputStruct Payload unit))
             (cp cp' : option CosmoParams) (up up' : option UserParams)
             (regenerate write : bool) (direc fname : option string)
             (match_seed do_spin_temp : bool) (w : World Payload Disk),
        OutputStruct.filled f = true ->
        ionize_box astro flags redshift (Some f) init_boxes cp up
          regenerate write direc fname match_seed do_spin_temp w
        = ionize_box astro flags redshift' (Some f) init_boxes' cp' up'
            regenerate write direc fname match_seed do_spin_temp w)
  /\ (forall (astro : AstroParams) (flags : FlagOptions) (redshift : option float)
             (g : OutputStruct Payload float)
             (init_boxes : option (OutputStruct Payload unit))
             (cp : option CosmoParams) (up : option UserParams)
             (regenerate write : bool) (direc fname : option string)
             (match_seed do_spin_temp : bool) (w : World Payload Disk),
        OutputStruct.filled g = false ->
        ionize_box astro flags redshift (Some g) init_boxes cp up
          regenerate write direc fname match_seed do_spin_temp w
        = ionize_box astro flags (Some (PerturbedField_redshift g)) None init_boxes cp up
            regenerate write direc fname match_seed do_spin_temp w).
Proof.
  split; [|split].
  - intros. reflexivity.
  - intros astro flags redshift redshift' f init_boxes init_boxes' cp cp' up up'
      regenerate write direc fname match_seed do_spin_temp w Hfilled.
    unfold ionize_box, bind, ret. simpl. rewrite Hfilled. reflexivity.
  - intros astro flags redshift g init_boxes cp up regenerate write direc fname
      match_seed do_spin_temp w Hunfilled.
    unfold ionize_box, bind, ret. simpl. rewrite Hunfilled. reflexivity.
Qed.





End WrapperFurtherFacts.




(* ====================================================================== *)
(** ** Facts about the wrapping functions with allocation                  *)
(* ====================================================================== *)




Section AllocatingFacts.
Context {Payload Disk : Type} `{Backend Payload Disk} `{Numerics}.










End AllocatingFacts.


